(** * Lead capture placeholder handler

    A shallow embedding of
    [infra/terraform/modules/api/lambda_placeholder/handler.py] together with
    the parts of the Python runtime the handler calls ([json.dumps],
    [json.loads], [uuid.uuid4], [datetime.isoformat], [os.environ.get],
    [logger.info]), and the properties of the handler stated by the
    specification. *)

From Stdlib Require Import NArith ZArith List Bool String Ascii Lia.
From Stdlib Require Import DecimalFacts DecimalPos.
From stdpp Require Import base option list gmap.

Import ListNotations.
Local Open Scope N_scope.

(** ** Python values *)

(** A Python [str] is a sequence of Unicode code points. *)
Definition pystr := list N.

(** The code points of an ASCII literal. *)
Definition lit (s : string) : pystr := map N_of_ascii (list_ascii_of_string s).

(** A Python [float] is kept as the decimal number its [repr] shows:
    [FFin neg m e] stands for [(-1)^neg * m * 10^e]. Rounding to binary64 is
    not modelled; no value of this type ever reaches a response. *)
Inductive pyfloat :=
| FNaN
| FInf (neg : bool)
| FFin (neg : bool) (m : N) (e : Z).

#[local] Set Warnings "-register-all".

(** The values that occur in events, request bodies and responses. A [dict]
    keeps insertion order, so it is an association list. *)
Inductive pyval :=
| PNone
| PBool (b : bool)
| PInt (z : Z)
| PFloat (f : pyfloat)
| PStr (s : pystr)
| PList (l : list pyval)
| PDict (d : list (pystr * pyval)).

Definition dict := list (pystr * pyval).

(** [bool(v)]: the truth value of [v] in an [if]. *)
Definition truthy (v : pyval) : bool :=
  match v with
  | PNone => false
  | PBool b => b
  | PInt z => negb (Z.eqb z 0)
  | PFloat (FFin _ m _) => negb (m =? 0)
  | PFloat _ => true
  | PStr s => negb (bool_decide (s = []))
  | PList l => match l with [] => false | _ => true end
  | PDict d => match d with [] => false | _ => true end
  end.

(** [isinstance(v, str)] *)
Definition isinstance_str (v : pyval) : bool :=
  match v with PStr _ => true | _ => false end.

(** [d[k]] as a lookup: the value stored under [k], if any. *)
Fixpoint dict_lookup (k : pystr) (d : dict) : option pyval :=
  match d with
  | [] => None
  | (k', v) :: d' => if bool_decide (k' = k) then Some v else dict_lookup k d'
  end.

(** [d.get(k)]: the value stored under [k], else [None]. *)
Definition dict_get (k : pystr) (d : dict) : pyval :=
  default PNone (dict_lookup k d).

(** [d[k] = v]: an existing key keeps its place, a new one goes last. *)
Fixpoint dict_set (k : pystr) (v : pyval) (d : dict) : dict :=
  match d with
  | [] => [(k, v)]
  | (k', v') :: d' =>
      if bool_decide (k' = k) then (k', v) :: d' else (k', v') :: dict_set k v d'
  end.

(** ** [json.dumps]

    The encoder with its default settings: [ensure_ascii=True],
    [allow_nan=True], separators [", "] and [": "], no indentation. This is
    the text the encoder writes when it returns. The handler encodes the
    event the runtime decoded for it and two small dicts of its own; the
    errors the encoder raises for an integer or a nesting beyond the limits
    of the interpreter are not modelled. *)

Definition hex_digit (n : N) : N := if n <? 10 then 48 + n else 87 + n.

(** ['\\u{0:04x}'.format(n)] *)
Definition u_escape (n : N) : pystr :=
  [92; 117; hex_digit (N.land (N.shiftr n 12) 15); hex_digit (N.land (N.shiftr n 8) 15);
   hex_digit (N.land (N.shiftr n 4) 15); hex_digit (N.land n 15)].

(** The replacement of one code point by [py_encode_basestring_ascii]:
    the quote, the backslash and everything outside [' '..'~'] is escaped,
    code points above the BMP as a surrogate pair. *)
Definition escape_char (c : N) : pystr :=
  if c =? 34 then [92; 34]
  else if c =? 92 then [92; 92]
  else if c =? 10 then [92; 110]
  else if c =? 13 then [92; 114]
  else if c =? 9 then [92; 116]
  else if c =? 12 then [92; 102]
  else if c =? 8 then [92; 98]
  else if (32 <=? c) && (c <=? 126) then [c]
  else if c <? 65536 then u_escape c
  else
    let n := c - 65536 in
    let s1 := N.lor 55296 (N.land (N.shiftr n 10) 1023) in
    let s2 := N.lor 56320 (N.land n 1023) in
    u_escape s1 ++ u_escape s2.

Definition escape_str (s : pystr) : pystr := concat (map escape_char s).

Definition encode_basestring_ascii (s : pystr) : pystr :=
  34 :: escape_str s ++ [34].

Fixpoint digits_of_uint (d : Decimal.uint) : pystr :=
  match d with
  | Decimal.Nil => []
  | Decimal.D0 d => 48 :: digits_of_uint d
  | Decimal.D1 d => 49 :: digits_of_uint d
  | Decimal.D2 d => 50 :: digits_of_uint d
  | Decimal.D3 d => 51 :: digits_of_uint d
  | Decimal.D4 d => 52 :: digits_of_uint d
  | Decimal.D5 d => 53 :: digits_of_uint d
  | Decimal.D6 d => 54 :: digits_of_uint d
  | Decimal.D7 d => 55 :: digits_of_uint d
  | Decimal.D8 d => 56 :: digits_of_uint d
  | Decimal.D9 d => 57 :: digits_of_uint d
  end.

(** The decimal digits of a natural number, ["0"] for zero. *)
Definition N_repr (n : N) : pystr :=
  match n with
  | 0 => [48]
  | Npos p => digits_of_uint (Pos.to_uint p)
  end.

(** [int.__repr__] *)
Definition int_repr (z : Z) : pystr :=
  match z with
  | Zneg p => 45 :: N_repr (Npos p)
  | _ => N_repr (Z.to_N z)
  end.

Definition zeros (n : nat) : pystr := repeat 48 n.

(** [n] written with at least [w] digits (["%0wd"]). *)
Definition zfill (w : nat) (n : N) : pystr :=
  let ds := N_repr n in zeros (w - length ds) ++ ds.

Fixpoint strip_zeros_rev (ds : pystr) (e : Z) : pystr * Z :=
  match ds with
  | d :: ds' => if d =? 48 then strip_zeros_rev ds' (e + 1)%Z else (ds, e)
  | [] => ([], e)
  end.

(** [float.__repr__] of a finite non-zero float with the significant digits
    [ds] and the decimal point after [decpt] of them: fixed notation for
    [-4 < decpt <= 16], else scientific with a two-digit exponent. *)
Definition format_float_short (ds : pystr) (decpt : Z) : pystr :=
  if ((-4 <? decpt) && (decpt <=? 16))%Z then
    if (decpt <=? 0)%Z then
      lit "0." ++ zeros (Z.to_nat (- decpt)) ++ ds
    else if (Z.of_nat (length ds) <=? decpt)%Z then
      ds ++ zeros (Z.to_nat decpt - length ds) ++ lit ".0"
    else
      take (Z.to_nat decpt) ds ++ 46 :: drop (Z.to_nat decpt) ds
  else
    let ex := (decpt - 1)%Z in
    take 1 ds ++ (match drop 1 ds with [] => [] | fr => 46 :: fr end)
      ++ 101 :: (if (ex <? 0)%Z then 45 else 43) :: zfill 2 (Z.abs_N ex).

Definition float_repr (neg : bool) (m : N) (e : Z) : pystr :=
  (if neg then [45] else []) ++
  (if m =? 0 then lit "0.0"
   else
     let '(rds, e') := strip_zeros_rev (rev (N_repr m)) e in
     format_float_short (rev rds) (Z.of_nat (length rds) + e')).

(** [floatstr] of the encoder *)
Definition floatstr (f : pyfloat) : pystr :=
  match f with
  | FNaN => lit "NaN"
  | FInf false => lit "Infinity"
  | FInf true => lit "-Infinity"
  | FFin neg m e => float_repr neg m e
  end.

(** [sep.join(parts)] *)
Fixpoint join (sep : pystr) (parts : list pystr) : pystr :=
  match parts with
  | [] => []
  | [p] => p
  | p :: ps => p ++ sep ++ join sep ps
  end.

Fixpoint json_dumps (v : pyval) : pystr :=
  match v with
  | PNone => lit "null"
  | PBool true => lit "true"
  | PBool false => lit "false"
  | PInt z => int_repr z
  | PFloat f => floatstr f
  | PStr s => encode_basestring_ascii s
  | PList l => 91 :: join (lit ", ") (map json_dumps l) ++ [93]
  | PDict d =>
      123 :: join (lit ", ")
               (map (fun kv => encode_basestring_ascii (fst kv) ++ lit ": " ++ json_dumps (snd kv)) d)
        ++ [125]
  end.

(** ** [json.loads]

    The grammar of the decoder with its default settings, as the C scanner
    implements it ([strict=True], [NaN], [Infinity] and [-Infinity]
    accepted): the value [json.loads] returns when no limit of the
    interpreter stops it, [None] where it raises [JSONDecodeError], the
    only exception a syntax error raises. The limits of the interpreter
    (digits of an integer literal, depth of the stack) come in where the
    handler calls the decoder, see [py_json_loads]. *)

Inductive presult (A : Type) :=
| Ok (a : A) (rest : pystr)
| Err
| OutOfFuel.
Arguments Ok {A} a rest.
Arguments Err {A}.
Arguments OutOfFuel {A}.

Definition is_ws (c : N) : bool :=
  (c =? 32) || (c =? 9) || (c =? 10) || (c =? 13).

Fixpoint skip_ws (s : pystr) : pystr :=
  match s with
  | c :: r => if is_ws c then skip_ws r else s
  | [] => []
  end.

Definition is_digit (c : N) : bool := (48 <=? c) && (c <=? 57).

Definition hex_value (c : N) : option N :=
  if (48 <=? c) && (c <=? 57) then Some (c - 48)
  else if (97 <=? c) && (c <=? 102) then Some (c - 87)
  else if (65 <=? c) && (c <=? 70) then Some (c - 55)
  else None.

(** The four hex digits of a [\uXXXX] escape. *)
Definition decode_hex4 (h1 h2 h3 h4 : N) : option N :=
  match hex_value h1, hex_value h2, hex_value h3, hex_value h4 with
  | Some a, Some b, Some c, Some d =>
      Some (N.lor (N.shiftl (N.lor (N.shiftl (N.lor (N.shiftl a 4) b) 4) c) 4) d)
  | _, _, _, _ => None
  end.

Definition is_high_surrogate (u : N) : bool := (55296 <=? u) && (u <=? 56319).
Definition is_low_surrogate (u : N) : bool := (56320 <=? u) && (u <=? 57343).
Definition join_surrogates (hi lo : N) : N :=
  65536 + N.lor (N.shiftl (N.land hi 1023) 10) (N.land lo 1023).

(** The character a one-letter escape stands for. *)
Definition simple_escape (e : N) : option N :=
  if e =? 34 then Some 34
  else if e =? 92 then Some 92
  else if e =? 47 then Some 47
  else if e =? 98 then Some 8
  else if e =? 102 then Some 12
  else if e =? 110 then Some 10
  else if e =? 114 then Some 13
  else if e =? 116 then Some 9
  else None.

Definition push (c : N) (r : option (pystr * pystr)) : option (pystr * pystr) :=
  match r with
  | Some (t, rest) => Some (c :: t, rest)
  | None => None
  end.

(** [scanstring] from just after the opening quote: the decoded string and
    the input after the closing quote. *)
Fixpoint scanstring (s : pystr) : option (pystr * pystr) :=
  match s with
  | [] => None
  | c :: r =>
      if c =? 34 then Some ([], r)
      else if c =? 92 then
        match r with
        | [] => None
        | e :: r1 =>
            if e =? 117 then
              match r1 with
              | h1 :: h2 :: h3 :: h4 :: r2 =>
                  match decode_hex4 h1 h2 h3 h4 with
                  | None => None
                  | Some u =>
                      if is_high_surrogate u then
                        match r2 with
                        | b :: v :: g1 :: g2 :: g3 :: g4 :: r3 =>
                            if (b =? 92) && (v =? 117) then
                              match decode_hex4 g1 g2 g3 g4 with
                              | None => None
                              | Some u2 =>
                                  if is_low_surrogate u2
                                  then push (join_surrogates u u2) (scanstring r3)
                                  else push u (scanstring r2)
                              end
                            else push u (scanstring r2)
                        | _ => push u (scanstring r2)
                        end
                      else push u (scanstring r2)
                  end
              | _ => None
              end
            else
              match simple_escape e with
              | Some x => push x (scanstring r1)
              | None => None
              end
        end
      else if c <=? 31 then None
      else push c (scanstring r)
  end.

Fixpoint span_digits (s : pystr) : pystr * pystr :=
  match s with
  | c :: r => if is_digit c then let '(ds, r') := span_digits r in (c :: ds, r') else ([], s)
  | [] => ([], [])
  end.

Definition digits_value (ds : pystr) : N :=
  fold_left (fun a d => a * 10 + (d - 48)) ds 0.

(** [_match_number]: an optional minus, [0] or a run of digits not starting
    with [0], then a fraction and an exponent where a digit follows. *)
Definition match_number (s : pystr) : option (pyval * pystr) :=
  let '(neg, s1) :=
    match s with
    | c :: r => if c =? 45 then (true, r) else (false, s)
    | [] => (false, s)
    end in
  match s1 with
  | [] => None
  | c :: r =>
      let intpart :=
        if (49 <=? c) && (c <=? 57) then
          let '(ds, r') := span_digits r in Some (c :: ds, r')
        else if c =? 48 then Some ([48], r)
        else None in
      match intpart with
      | None => None
      | Some (ids, r1) =>
          let '(fds, r2) :=
            match r1 with
            | d :: f :: r' =>
                if (d =? 46) && is_digit f
                then let '(ds, r'') := span_digits r' in (f :: ds, r'')
                else ([], r1)
            | _ => ([], r1)
            end in
          let '(ex, r3) :=
            match r2 with
            | e :: r' =>
                if (e =? 101) || (e =? 69) then
                  let '(eneg, r'') :=
                    match r' with
                    | sg :: r''' =>
                        if sg =? 45 then (true, r''')
                        else if sg =? 43 then (false, r''')
                        else (false, r')
                    | [] => (false, r')
                    end in
                  let '(eds, r4) := span_digits r'' in
                  match eds with
                  | [] => (None, r2)
                  | _ => (Some (eneg, digits_value eds), r4)
                  end
                else (None, r2)
            | [] => (None, r2)
            end in
          match fds, ex with
          | [], None =>
              let n := Z.of_N (digits_value ids) in
              Some (PInt (if neg then - n else n)%Z, r3)
          | _, _ =>
              let e10 :=
                match ex with
                | Some (true, x) => (- Z.of_N x)%Z
                | Some (false, x) => Z.of_N x
                | None => 0%Z
                end in
              Some (PFloat (FFin neg (digits_value (ids ++ fds))
                                 (e10 - Z.of_nat (length fds))), r3)
          end
      end
  end.

(** [s] without the prefix [p], if it starts with it. *)
Fixpoint eat (p s : pystr) : option pystr :=
  match p, s with
  | [], _ => Some s
  | a :: p', b :: s' => if a =? b then eat p' s' else None
  | _ :: _, [] => None
  end.

Definition constant (name : string) (v : pyval) (s : pystr) : option (pyval * pystr) :=
  match eat (lit name) s with
  | Some r => Some (v, r)
  | None => None
  end.

Definition of_option {A} (o : option (A * pystr)) : presult A :=
  match o with
  | Some (a, r) => Ok a r
  | None => Err
  end.

(** [scan_once] with the loops of [_parse_object] and [_parse_array]; every
    call takes one unit of fuel. *)
Fixpoint scan_once (fuel : nat) (s : pystr) : presult pyval :=
  match fuel with
  | O => OutOfFuel
  | S f =>
      match s with
      | [] => Err
      | c :: r =>
          if c =? 34 then
            match scanstring r with
            | Some (t, r') => Ok (PStr t) r'
            | None => Err
            end
          else if c =? 123 then
            match skip_ws r with
            | c' :: r' =>
                if c' =? 125 then Ok (PDict []) r'
                else parse_object f (c' :: r') []
            | [] => Err
            end
          else if c =? 91 then
            match skip_ws r with
            | c' :: r' =>
                if c' =? 93 then Ok (PList []) r'
                else parse_array f (c' :: r') []
            | [] => Err
            end
          else
            let named :=
              if c =? 110 then constant "null" PNone s
              else if c =? 116 then constant "true" (PBool true) s
              else if c =? 102 then constant "false" (PBool false) s
              else if c =? 78 then constant "NaN" (PFloat FNaN) s
              else if c =? 73 then constant "Infinity" (PFloat (FInf false)) s
              else if c =? 45 then constant "-Infinity" (PFloat (FInf true)) s
              else None in
            match named with
            | Some vr => of_option (Some vr)
            | None => of_option (match_number s)
            end
      end
  end

with parse_object (fuel : nat) (s : pystr) (acc : dict) : presult pyval :=
  match fuel with
  | O => OutOfFuel
  | S f =>
      match s with
      | [] => Err
      | c :: r =>
          if c =? 34 then
            match scanstring r with
            | None => Err
            | Some (key, r1) =>
                match skip_ws r1 with
                | [] => Err
                | c2 :: r2 =>
                    if c2 =? 58 then
                      match scan_once f (skip_ws r2) with
                      | Ok v r3 =>
                          let acc' := dict_set key v acc in
                          match skip_ws r3 with
                          | [] => Err
                          | c4 :: r4 =>
                              if c4 =? 125 then Ok (PDict acc') r4
                              else if c4 =? 44 then parse_object f (skip_ws r4) acc'
                              else Err
                          end
                      | Err => Err
                      | OutOfFuel => OutOfFuel
                      end
                    else Err
                end
            end
          else Err
      end
  end

with parse_array (fuel : nat) (s : pystr) (acc : list pyval) : presult pyval :=
  match fuel with
  | O => OutOfFuel
  | S f =>
      match scan_once f s with
      | Ok v r1 =>
          let acc' := acc ++ [v] in
          match skip_ws r1 with
          | [] => Err
          | c :: r2 =>
              if c =? 93 then Ok (PList acc') r2
              else if c =? 44 then parse_array f (skip_ws r2) acc'
              else Err
          end
      | Err => Err
      | OutOfFuel => OutOfFuel
      end
  end.

(** [json.loads(s)] for a [str]: a leading BOM is refused, white space may
    surround the one value, anything after it is an error. *)
Definition json_loads (s : pystr) : option pyval :=
  match s with
  | 65279 :: _ => None
  | _ =>
      match scan_once (S (S (2 * length s))) (skip_ws s) with
      | Ok v r => match skip_ws r with [] => Some v | _ :: _ => None end
      | _ => None
      end
  end.

(** ** [uuid.uuid4] and [datetime.isoformat] *)

(** [int.from_bytes(bs, 'big')] *)
Definition int_from_bytes (bs : list N) : N :=
  fold_left (fun a b => a * 256 + b) bs 0.

(** [UUID(bytes=random_bytes, version=4).int]: the variant bits are set to
    RFC 4122 and the version nibble to 4. *)
Definition uuid4 (random_bytes : list N) : N :=
  let i := int_from_bytes random_bytes in
  let i := N.ldiff i (N.shiftl 49152 48) in
  let i := N.lor i (N.shiftl 32768 48) in
  let i := N.ldiff i (N.shiftl 61440 64) in
  N.lor i (N.shiftl 4 76).

(** The [w] low hex digits of [n], most significant first: ['%0wx' % n] for
    [n < 16^w]. *)
Definition hex_fixed (w : nat) (n : N) : pystr :=
  map (fun i => hex_digit (N.land (N.shiftr n (4 * N.of_nat i)) 15)) (rev (seq 0 w)).

(** [str(u)] for a UUID with the integer value [u]. *)
Definition uuid_str (u : N) : pystr :=
  let x := hex_fixed 32 u in
  take 8 x ++ 45 :: take 4 (drop 8 x) ++ 45 :: take 4 (drop 12 x)
    ++ 45 :: take 4 (drop 16 x) ++ 45 :: drop 20 x.

Record datetime := {
  year : N; month : N; day : N;
  hour : N; minute : N; second : N; microsecond : N
}.

(** [dt.isoformat()] for a naive [datetime]: the microseconds are left out
    when they are zero. *)
Definition isoformat (dt : datetime) : pystr :=
  zfill 4 (year dt) ++ 45 :: zfill 2 (month dt) ++ 45 :: zfill 2 (day dt)
    ++ 84 :: zfill 2 (hour dt) ++ 58 :: zfill 2 (minute dt) ++ 58 :: zfill 2 (second dt)
    ++ (if microsecond dt =? 0 then [] else 46 :: zfill 6 (microsecond dt)).

(** ** The world the handler runs in *)

Inductive exn :=
| AttributeError
| KeyError
| TypeError
| ValueError
| RecursionError
| JSONDecodeError.

#[global] Instance exn_eq_dec : EqDecision exn.
Proof. solve_decision. Defined.

Inductive outcome (A : Type) :=
| Returns (a : A)
| Raises (e : exn).
Arguments Returns {A} a.
Arguments Raises {A} e.

(** The [context] argument: [None], or the runtime's context object. *)
Record LambdaContext := { aws_request_id : pystr }.

(** The limits of the interpreter that can stop [json.loads]: the digits
    of an integer literal ([sys.get_int_max_str_digits()], 4300 unless
    changed: [int] raises [ValueError]) and the depth of the stack
    ([RecursionError]). The handler catches neither exception. *)
Inductive limit :=
| IntMaxStrDigits
| RecursionLimit.

Definition limit_exn (l : limit) : exn :=
  match l with
  | IntMaxStrDigits => ValueError
  | RecursionLimit => RecursionError
  end.

(** What is known of the interpreter the handler runs in. A text with at
    most [max_str_digits] digits and at most [safe_nesting] opening brackets
    and braces is decoded as the grammar says: no integer literal in it is
    too long and no nesting too deep. Which of the texts beyond these
    bounds the decoder stops at, and at which limit, depends on the version
    of the interpreter, on its settings and on the depth of the stack at
    the call: [beyond] says it. *)
Record interpreter := {
  max_str_digits : N;
  safe_nesting : N;
  beyond : pystr -> option limit
}.

(** Everything outside the handler's arguments that a call can read or
    change. [urandom] and [utcnow] are what [os.urandom(16)] and
    [datetime.utcnow()] yield during the call. *)
Record world := {
  environ : gmap pystr pystr;
  urandom : list N;
  utcnow : datetime;
  logger_level : N;
  log : list (N * pystr);
  dynamodb : gmap pystr (list dict);
  event_bus : gmap pystr (list dict);
  interp : interpreter
}.

Definition M (A : Type) : Type := world -> outcome A * world.

Definition ret {A} (a : A) : M A := fun w => (Returns a, w).

Definition bind {A B} (m : M A) (k : A -> M B) : M B :=
  fun w =>
    match m w with
    | (Returns a, w') => k a w'
    | (Raises e, w') => (Raises e, w')
    end.

Definition raise {A} (e : exn) : M A := fun w => (Raises e, w).

Notation "'let*' x ':=' m 'in' k" := (bind m (fun x => k))
  (at level 10, x pattern, m at level 100, k at level 200).

(** [try: body / except e: return r] followed by [rest]: the handler of the
    exception leaves the function with [r]. *)
Definition try_except_return {A B} (body : M A) (e : exn) (r : M B) (rest : A -> M B) : M B :=
  fun w =>
    match body w with
    | (Returns a, w') => rest a w'
    | (Raises e', w') => if bool_decide (e' = e) then r w' else (Raises e', w')
    end.

(** [os.environ.get(name, default)] *)
Definition os_environ_get (name : pystr) (default : pyval) : M pyval :=
  fun w =>
    (Returns (match environ w !! name with Some v => PStr v | None => default end), w).

Definition INFO : N := 20.

(** [logger.info(msg)]: the record is handled when the logger's level
    enables [INFO]. *)
Definition logger_info (msg : pystr) : M unit :=
  fun w =>
    (Returns tt,
     if logger_level w <=? INFO then
       {| environ := environ w; urandom := urandom w; utcnow := utcnow w;
          logger_level := logger_level w; log := log w ++ [(INFO, msg)];
          dynamodb := dynamodb w; event_bus := event_bus w; interp := interp w |}
     else w).

Definition level_of_name (name : pystr) : option N :=
  if bool_decide (name = lit "CRITICAL") then Some 50
  else if bool_decide (name = lit "FATAL") then Some 50
  else if bool_decide (name = lit "ERROR") then Some 40
  else if bool_decide (name = lit "WARN") then Some 30
  else if bool_decide (name = lit "WARNING") then Some 30
  else if bool_decide (name = lit "INFO") then Some 20
  else if bool_decide (name = lit "DEBUG") then Some 10
  else if bool_decide (name = lit "NOTSET") then Some 0
  else None.

(** [logger.setLevel(level)] *)
Definition logger_setLevel (level : pyval) : M unit :=
  fun w =>
    match level with
    | PStr name =>
        match level_of_name name with
        | Some l =>
            (Returns tt,
             {| environ := environ w; urandom := urandom w; utcnow := utcnow w;
                logger_level := l; log := log w;
                dynamodb := dynamodb w; event_bus := event_bus w; interp := interp w |})
        | None => (Raises ValueError, w)
        end
    | _ => (Raises TypeError, w)
    end.

(** [v.get(k)] *)
Definition py_get (v : pyval) (k : pystr) : M pyval :=
  match v with
  | PDict d => ret (dict_get k d)
  | _ => raise AttributeError
  end.

(** [v[k]] for a string key *)
Definition py_getitem (v : pyval) (k : pystr) : M pyval :=
  match v with
  | PDict d => match dict_lookup k d with Some x => ret x | None => raise KeyError end
  | _ => raise TypeError
  end.

(** The number of characters of [s] that satisfy [p]. *)
Fixpoint count (p : N -> bool) (s : pystr) : N :=
  match s with
  | [] => 0
  | c :: r => (if p c then 1 else 0) + count p r
  end.

(** An opening bracket or brace. *)
Definition opens (c : N) : bool := (c =? 91) || (c =? 123).

Definition within_limits (i : interpreter) (s : pystr) : bool :=
  (count is_digit s <=? max_str_digits i) && (count opens s <=? safe_nesting i).

(** The limit [json.loads(s)] runs into in [w], if any. *)
Definition decoder_limit (w : world) (s : pystr) : option limit :=
  if within_limits (interp w) s then None else beyond (interp w) s.

(** [json.loads(v)]: the exception of the limit the decoder runs into, or
    else what the grammar says. *)
Definition py_json_loads (v : pyval) : M pyval :=
  match v with
  | PStr s =>
      fun w =>
        match decoder_limit w s with
        | Some l => (Raises (limit_exn l), w)
        | None =>
            match json_loads s with
            | Some x => (Returns x, w)
            | None => (Raises JSONDecodeError, w)
            end
        end
  | _ => raise TypeError
  end.

(** [str(uuid.uuid4())] *)
Definition str_uuid4 : M pystr := fun w => (Returns (uuid_str (uuid4 (urandom w))), w).

(** [datetime.utcnow().isoformat()] *)
Definition utcnow_isoformat : M pystr := fun w => (Returns (isoformat (utcnow w)), w).

(** ** The handler module *)

(** The statements of the module run at import: the root logger takes its
    level from [LOG_LEVEL]. *)
Definition module_init : M unit :=
  let* log_level := os_environ_get (lit "LOG_LEVEL") (PStr (lit "INFO")) in
  logger_setLevel log_level.

Definition _error_response (status_code : Z) (code message : pystr) (details : pyval) : pyval :=
  let error := [(lit "code", PStr code); (lit "message", PStr message)] in
  let error := if truthy details then dict_set (lit "details") details error else error in
  let error_body := PDict [(lit "success", PBool false); (lit "error", PDict error)] in
  PDict [(lit "statusCode", PInt status_code);
         (lit "headers", PDict [(lit "Content-Type", PStr (lit "application/json"))]);
         (lit "body", PStr (json_dumps error_body))].

Definition lambda_handler (event : pyval) (context : option LambdaContext) : M pyval :=
  let* _ := logger_info (lit "Received event: " ++ json_dumps event) in
  let* table_name := os_environ_get (lit "DYNAMODB_TABLE_NAME") PNone in
  let* event_bus := os_environ_get (lit "EVENT_BUS_NAME") PNone in
  let* environment := os_environ_get (lit "ENVIRONMENT") (PStr (lit "dev")) in
  try_except_return
    (let* b := py_get event (lit "body") in
     if truthy b then
       let* eb := py_getitem event (lit "body") in
       if isinstance_str eb then py_json_loads eb else ret eb
     else ret (PDict []))
    JSONDecodeError
    (ret (_error_response 400 (lit "INVALID_JSON") (lit "Request body must be valid JSON") PNone))
    (fun body =>
       let* lead_id := str_uuid4 in
       let* now := utcnow_isoformat in
       let timestamp := now ++ lit "Z" in
       let response_body :=
         PDict [(lit "success", PBool true);
                (lit "leadId", PStr lead_id);
                (lit "message", PStr (lit "Thank you for your submission"));
                (lit "_meta", PDict [(lit "environment", environment);
                                     (lit "timestamp", PStr timestamp);
                                     (lit "placeholder", PBool true)])] in
       let* _ := logger_info (lit "Created lead: " ++ lead_id) in
       ret (PDict [(lit "statusCode", PInt 200);
                   (lit "headers",
                    PDict [(lit "Content-Type", PStr (lit "application/json"));
                           (lit "X-Request-Id",
                            PStr (match context with
                                  | Some c => aws_request_id c
                                  | None => lead_id
                                  end))]);
                   (lit "body", PStr (json_dumps response_body))])).

(** ** Auxiliary definitions for the proofs *)

(** [P] holds of the [k] numbers from [n] on. *)
Fixpoint all_from (P : N -> bool) (n : N) (k : nat) : bool :=
  match k with
  | O => true
  | S k' => P n && all_from P (N.succ n) k'
  end.

(** The ASCII characters the encoder leaves as they are. *)
Definition plain (c : N) : bool :=
  (32 <=? c) && (c <=? 126) && negb (c =? 34) && negb (c =? 92).

Definition hex4_roundtrip (u : N) : bool :=
  bool_decide (decode_hex4 (hex_digit (N.land (N.shiftr u 12) 15))
                 (hex_digit (N.land (N.shiftr u 8) 15))
                 (hex_digit (N.land (N.shiftr u 4) 15))
                 (hex_digit (N.land u 15)) = Some u).

(** What [scanstring] does after a [\uXXXX] escape of a high surrogate [u],
    with [self] for the recursive call. *)
Definition surrogate_tail (self : pystr -> option (pystr * pystr)) (u : N) (R : pystr)
  : option (pystr * pystr) :=
  match R with
  | b :: v :: g1 :: g2 :: g3 :: g4 :: r3 =>
      if (b =? 92) && (v =? 117) then
        match decode_hex4 g1 g2 g3 g4 with
        | None => None
        | Some u2 =>
            if is_low_surrogate u2
            then push (join_surrogates u u2) (self r3)
            else push u (self R)
        end
      else push u (self R)
  | _ => push u (self R)
  end.

(** The forms an escaped code point takes. *)
Inductive escape_shape (c : N) : pystr -> Prop :=
| shape_plain : plain c = true -> escape_shape c [c]
| shape_simple x : x <> 117 -> simple_escape x = Some c -> escape_shape c [92; x]
| shape_bmp : c < 65536 -> plain c = false -> escape_shape c (u_escape c)
| shape_pair s1 s2 :
    s1 < 65536 -> s2 < 65536 ->
    is_high_surrogate s1 = true -> is_low_surrogate s2 = true ->
    escape_shape c (u_escape s1 ++ u_escape s2).

(** ** Reading a response *)

(** [v.get(k)] for a response or one of its parts; [None] where [v] is
    not a dict. *)
Definition field (k : string) (v : pyval) : pyval :=
  match v with
  | PDict d => dict_get (lit k) d
  | _ => PNone
  end.

(** Whether the dict [v] has the key [k]. *)
Definition has_key (k : string) (v : pyval) : bool :=
  match v with
  | PDict d => bool_decide (is_Some (dict_lookup (lit k) d))
  | _ => false
  end.

(** [json.loads(r["body"])] for a response [r]. *)
Definition decoded_body (r : pyval) : option pyval :=
  match field "body" r with
  | PStr s => json_loads s
  | _ => None
  end.

(** The world after [logger.info(msg)]. *)
Definition logged (msg : pystr) (w : world) : world := snd (logger_info msg w).

(** The request body the handler reads: [event.get("body")]. *)
Definition request_body (d : dict) : pyval := dict_get (lit "body") d.

(** The body is a non-empty string that is not JSON: the one case in which
    the handler answers 400, unless the decoder runs into a limit first. *)
Definition body_rejected (d : dict) : bool :=
  match request_body d with
  | PStr s => negb (bool_decide (s = [])) && bool_decide (json_loads s = None)
  | _ => false
  end.

(** The limit the decoder runs into on the body, if the handler decodes
    the body and there is one. *)
Definition body_limit (d : dict) (w : world) : option limit :=
  match request_body d with
  | PStr s => if bool_decide (s = []) then None else decoder_limit w s
  | _ => None
  end.

(** ** The two responses of the handler, named for the proofs *)

(** What [os.environ.get("ENVIRONMENT", "dev")] yields in [w]. *)
Definition environment_of (w : world) : pyval :=
  match environ w !! lit "ENVIRONMENT" with
  | Some v => PStr v
  | None => PStr (lit "dev")
  end.

(** The lead id a call in [w] generates. *)
Definition lead_id_of (w : world) : pystr := uuid_str (uuid4 (urandom w)).

(** The timestamp a call in [w] generates. *)
Definition timestamp_of (w : world) : pystr := isoformat (utcnow w) ++ lit "Z".

Definition success_body (lead_id : pystr) (environment : pyval) (timestamp : pystr) : pyval :=
  PDict [(lit "success", PBool true);
         (lit "leadId", PStr lead_id);
         (lit "message", PStr (lit "Thank you for your submission"));
         (lit "_meta", PDict [(lit "environment", environment);
                              (lit "timestamp", PStr timestamp);
                              (lit "placeholder", PBool true)])].

Definition success_response (context : option LambdaContext) (w : world) : pyval :=
  PDict [(lit "statusCode", PInt 200);
         (lit "headers",
          PDict [(lit "Content-Type", PStr (lit "application/json"));
                 (lit "X-Request-Id",
                  PStr (match context with
                        | Some c => aws_request_id c
                        | None => lead_id_of w
                        end))]);
         (lit "body",
          PStr (json_dumps (success_body (lead_id_of w) (environment_of w) (timestamp_of w))))].

Definition invalid_json_response : pyval :=
  _error_response 400 (lit "INVALID_JSON") (lit "Request body must be valid JSON") PNone.

Definition received_msg (event : pyval) : pystr :=
  lit "Received event: " ++ json_dumps event.

Definition created_msg (w : world) : pystr := lit "Created lead: " ++ lead_id_of w.

(** ** Concrete inputs *)

(** [s] between double quotes. *)
Definition quoted (s : string) : pystr := 34 :: lit s ++ [34].

(** An interpreter with the default limit of 4300 digits and room for 900
    nested containers, which stops at every text beyond these bounds. *)
Definition example_interpreter : interpreter :=
  {| max_str_digits := 4300;
     safe_nesting := 900;
     beyond := fun s => if 4300 <? count is_digit s
                        then Some IntMaxStrDigits else Some RecursionLimit |}.

Definition example_world : world :=
  {| environ := {[ lit "ENVIRONMENT" := lit "prod" ]};
     urandom := [1; 2; 3; 4; 5; 6; 7; 8; 9; 10; 11; 12; 13; 14; 15; 255];
     utcnow := {| year := 2024; month := 3; day := 9;
                  hour := 7; minute := 5; second := 1; microsecond := 1234 |};
     logger_level := INFO;
     log := [];
     dynamodb := ∅;
     event_bus := ∅;
     interp := example_interpreter |}.

(** A request without [name] and with a malformed [email]. *)
Definition example_event : dict :=
  [(lit "httpMethod", PStr (lit "POST"));
   (lit "body",
    PStr (lit "{" ++ quoted "email" ++ lit ": " ++ quoted "not-an-email" ++ lit "}"))].


(** A request whose body is the text of an unclosed object. *)
Definition broken_event : dict := [(lit "body", PStr (lit "{"))].



Definition example_context : LambdaContext :=
  {| aws_request_id := lit "c6af9ac6-7b61-11e6-9a41-93e8deadbeef" |}.

(** ** Predicates of the claims *)

(** [w] with the environment variables [e]. *)
Definition with_environ (e : gmap pystr pystr) (w : world) : world :=
  {| environ := e; urandom := urandom w; utcnow := utcnow w;
     logger_level := logger_level w; log := log w;
     dynamodb := dynamodb w; event_bus := event_bus w; interp := interp w |}.



(** What every response has: a status code, the JSON content type and a
    body that decodes to a dict whose [success] says whether the status
    is 200. *)
Definition well_formed_response (r : pyval) : Prop :=
  exists (d : dict) (sc : Z) (h : dict) (s : pystr) (o : dict) (b : bool),
    r = PDict d
    /\ field "statusCode" r = PInt sc
    /\ field "headers" r = PDict h
    /\ dict_lookup (lit "Content-Type") h = Some (PStr (lit "application/json"))
    /\ field "body" r = PStr s
    /\ json_loads s = Some (PDict o)
    /\ dict_lookup (lit "success") o = Some (PBool b)
    /\ (b = true <-> sc = 200%Z).

(** ** Further definitions for the properties of the module *)

(** A Unicode scalar value: a code point that is not a surrogate. *)
Definition scalar (c : N) : bool :=
  (c <? 1114112) && negb ((55296 <=? c) && (c <=? 57343)).

Definition astral_roundtrip (n : N) : bool :=
  join_surrogates (N.lor 55296 (N.land (N.shiftr n 10) 1023))
                  (N.lor 56320 (N.land n 1023)) =? 65536 + n.

(** [w] at a later call, for which [os.urandom(16)] yields [bs] and the
    clock reads [t]. *)
Definition with_call (bs : list N) (t : datetime) (w : world) : world :=
  {| environ := environ w; urandom := bs; utcnow := t;
     logger_level := logger_level w; log := log w;
     dynamodb := dynamodb w; event_bus := event_bus w; interp := interp w |}.

(** A cold start: the runtime imports the module, then calls the handler. *)
Definition cold_start (event : pyval) (context : option LambdaContext) : M pyval :=
  let* _ := module_init in
  lambda_handler event context.

(** The level names [logger.setLevel] knows. *)
Definition level_names : list pystr :=
  [lit "CRITICAL"; lit "FATAL"; lit "ERROR"; lit "WARN"; lit "WARNING";
   lit "INFO"; lit "DEBUG"; lit "NOTSET"].

(** What may follow a value inside a JSON text. *)
Definition delim_ok (rest : pystr) : Prop :=
  rest = [] \/ exists c r, rest = c :: r /\ (c = 44 \/ c = 93 \/ c = 125).

(** The values [json.loads] returns as they were written: no floats,
    strings and keys of scalar values, no key twice in a dict. *)
Fixpoint json_safe (v : pyval) : bool :=
  match v with
  | PNone | PBool _ | PInt _ => true
  | PFloat _ => false
  | PStr s => forallb scalar s
  | PList l => forallb json_safe l
  | PDict d =>
      forallb (fun kv => forallb scalar (fst kv) && json_safe (snd kv)) d
      && bool_decide (NoDup (map fst d))
  end.

(** A bound on the fuel [scan_once] takes on the text of [v]. *)
Fixpoint size (v : pyval) : nat :=
  match v with
  | PList l => S (list_sum (map (fun x => S (size x)) l))
  | PDict d => S (list_sum (map (fun kv => S (size (snd kv))) d))
  | _ => 1
  end.

(** [scan_once] reads the text of [v] back, whatever delimiter follows. *)
Definition dumps_parses (v : pyval) : Prop :=
  forall f rest, (size v <= f)%nat -> delim_ok rest ->
                 scan_once f (json_dumps v ++ rest) = Ok v rest.

(** The text of one member of a dict. *)
Definition member_text (kv : pystr * pyval) : pystr :=
  encode_basestring_ascii (fst kv) ++ lit ": " ++ json_dumps (snd kv).

(** The first character of a text: not white space, not a closing
    bracket, not a byte order mark. *)
Definition good_head (s : pystr) : Prop :=
  exists c r, s = c :: r /\ is_ws c = false /\ c <> 93 /\ c <> 65279
              /\ ((is_digit c = true)
                  \/ (c = 45 /\ exists c' r', r = c' :: r' /\ is_digit c' = true)
                  \/ In c [34; 91; 123; 110; 116; 102]).

Definition lower_hex (c : N) : bool :=
  ((48 <=? c) && (c <=? 57)) || ((97 <=? c) && (c <=? 102)).

(** The canonical text of a version 4 UUID of the RFC 4122 variant,
    [xxxxxxxx-xxxx-4xxx-yxxx-xxxxxxxxxxxx] with [x] a lower-case hex digit
    and [y] one of [8], [9], [a], [b]. *)
Definition is_uuid4_text (s : pystr) : bool :=
  (length s =? 36)%nat
  && forallb lower_hex (take 8 s) && (nth 8 s 0 =? 45)
  && forallb lower_hex (take 4 (drop 9 s)) && (nth 13 s 0 =? 45)
  && (nth 14 s 0 =? 52) && forallb lower_hex (take 3 (drop 15 s)) && (nth 18 s 0 =? 45)
  && existsb (N.eqb (nth 19 s 0)) [56; 57; 97; 98]
  && forallb lower_hex (take 3 (drop 20 s)) && (nth 23 s 0 =? 45)
  && forallb lower_hex (drop 24 s).

(** The fields of a [datetime] are in the ranges the class enforces. *)
Definition valid_datetime (dt : datetime) : Prop :=
  1 <= year dt <= 9999 /\ 1 <= month dt <= 12 /\ 1 <= day dt <= 31
  /\ hour dt < 24 /\ minute dt < 60 /\ second dt < 60 /\ microsecond dt < 1000000.

(** [s] is the number [n] written with exactly [k] decimal digits. *)
Definition digits_text (k : nat) (n : N) (s : pystr) : Prop :=
  length s = k /\ forallb is_digit s = true /\ digits_value s = n.

(** * Properties *)

(** ** Exhaustive checks over a segment of [N] *)

Lemma all_from_spec (P : N -> bool) (k : nat) :
  forall n, all_from P n k = true ->
  forall m, n <= m -> m < n + N.of_nat k -> P m = true.
Proof.
  induction k as [|k IH]; simpl; intros n H m Hlo Hhi; [lia|].
  apply andb_true_iff in H as [Hn Hrest].
  destruct (N.eq_dec m n) as [->|Hne]; [exact Hn|].
  apply (IH (N.succ n)); [exact Hrest|lia|lia].
Qed.

Lemma all_below_16bit (P : N -> bool) :
  all_from P 0 (Z.to_nat 65536) = true -> forall u, u < 65536 -> P u = true.
Proof.
  intros H u Hu. apply (all_from_spec P _ 0 H); [lia|].
  rewrite Z_nat_N. exact Hu.
Qed.

(** ** Strings written by the encoder are read back by [scanstring] *)

Lemma decode_u_escape (u : N) :
  u < 65536 ->
  exists h1 h2 h3 h4,
    u_escape u = [92; 117; h1; h2; h3; h4] /\ decode_hex4 h1 h2 h3 h4 = Some u.
Proof.
  intros Hu. unfold u_escape. do 4 eexists. split; [reflexivity|].
  assert (HP : all_from hex4_roundtrip 0 (Z.to_nat 65536) = true)
    by (vm_compute; reflexivity).
  apply (all_below_16bit _ HP) in Hu.
  apply bool_decide_eq_true in Hu. exact Hu.
Qed.

Lemma land_1023_lt (x : N) : N.land x 1023 < 1024.
Proof.
  change 1023 with (N.ones 10). rewrite N.land_ones.
  apply N.mod_lt. discriminate.
Qed.

Lemma high_unit (z : N) :
  z < 1024 ->
  N.lor 55296 z < 65536 /\ is_high_surrogate (N.lor 55296 z) = true.
Proof.
  intros Hz.
  pose (P := fun z => (N.lor 55296 z <? 65536) && is_high_surrogate (N.lor 55296 z)).
  assert (HP : all_from P 0 1024 = true) by (vm_compute; reflexivity).
  assert (H : P z = true) by (apply (all_from_spec P _ 0 HP); lia).
  apply andb_true_iff in H as [H1 H2]. apply N.ltb_lt in H1. auto.
Qed.

Lemma low_unit (z : N) :
  z < 1024 ->
  N.lor 56320 z < 65536 /\ is_low_surrogate (N.lor 56320 z) = true.
Proof.
  intros Hz.
  pose (P := fun z => (N.lor 56320 z <? 65536) && is_low_surrogate (N.lor 56320 z)).
  assert (HP : all_from P 0 1024 = true) by (vm_compute; reflexivity).
  assert (H : P z = true) by (apply (all_from_spec P _ 0 HP); lia).
  apply andb_true_iff in H as [H1 H2]. apply N.ltb_lt in H1. auto.
Qed.

Lemma escape_char_shape (c : N) : escape_shape c (escape_char c).
Proof.
  unfold escape_char.
  destruct (c =? 34) eqn:E1.
  { apply N.eqb_eq in E1 as ->. apply shape_simple; [discriminate|reflexivity]. }
  destruct (c =? 92) eqn:E2.
  { apply N.eqb_eq in E2 as ->. apply shape_simple; [discriminate|reflexivity]. }
  destruct (c =? 10) eqn:E3.
  { apply N.eqb_eq in E3 as ->. apply shape_simple; [discriminate|reflexivity]. }
  destruct (c =? 13) eqn:E4.
  { apply N.eqb_eq in E4 as ->. apply shape_simple; [discriminate|reflexivity]. }
  destruct (c =? 9) eqn:E5.
  { apply N.eqb_eq in E5 as ->. apply shape_simple; [discriminate|reflexivity]. }
  destruct (c =? 12) eqn:E6.
  { apply N.eqb_eq in E6 as ->. apply shape_simple; [discriminate|reflexivity]. }
  destruct (c =? 8) eqn:E7.
  { apply N.eqb_eq in E7 as ->. apply shape_simple; [discriminate|reflexivity]. }
  destruct ((32 <=? c) && (c <=? 126)) eqn:E8.
  { apply shape_plain. unfold plain. rewrite E8, E1, E2. reflexivity. }
  destruct (c <? 65536) eqn:E9.
  { apply N.ltb_lt in E9. apply shape_bmp; [exact E9|].
    unfold plain. rewrite E8. reflexivity. }
  cbv zeta.
  destruct (high_unit (N.land (N.shiftr (c - 65536) 10) 1023)) as [H1 H2];
    [apply land_1023_lt|].
  destruct (low_unit (N.land (c - 65536) 1023)) as [H3 H4];
    [apply land_1023_lt|].
  apply shape_pair; assumption.
Qed.

Lemma scanstring_quote (R : pystr) : scanstring (34 :: R) = Some ([], R).
Proof. reflexivity. Qed.

Lemma scanstring_plain (c : N) (R : pystr) :
  plain c = true -> scanstring (c :: R) = push c (scanstring R).
Proof.
  unfold plain. intros H.
  apply andb_true_iff in H as [H H92]. apply andb_true_iff in H as [H H34].
  apply andb_true_iff in H as [Hlo Hhi].
  apply negb_true_iff in H92, H34. apply N.leb_le in Hlo.
  assert (H31 : (c <=? 31) = false) by (apply N.leb_gt; lia).
  simpl. rewrite H34, H92, H31. reflexivity.
Qed.

Lemma scanstring_simple (x c : N) (R : pystr) :
  x <> 117 -> simple_escape x = Some c ->
  scanstring (92 :: x :: R) = push c (scanstring R).
Proof.
  intros Hx Hc. apply N.eqb_neq in Hx.
  change (scanstring (92 :: x :: R))
    with (if x =? 117
          then match R with
               | h1 :: h2 :: h3 :: h4 :: r2 =>
                   match decode_hex4 h1 h2 h3 h4 with
                   | None => None
                   | Some u =>
                       if is_high_surrogate u
                       then surrogate_tail scanstring u r2
                       else push u (scanstring r2)
                   end
               | _ => None
               end
          else match simple_escape x with
               | Some y => push y (scanstring R)
               | None => None
               end).
  rewrite Hx, Hc. reflexivity.
Qed.

Lemma scanstring_u (h1 h2 h3 h4 u : N) (R : pystr) :
  decode_hex4 h1 h2 h3 h4 = Some u ->
  scanstring (92 :: 117 :: h1 :: h2 :: h3 :: h4 :: R) =
    if is_high_surrogate u then surrogate_tail scanstring u R
    else push u (scanstring R).
Proof.
  intros H.
  change (scanstring (92 :: 117 :: h1 :: h2 :: h3 :: h4 :: R))
    with (match decode_hex4 h1 h2 h3 h4 with
          | None => None
          | Some u =>
              if is_high_surrogate u
              then surrogate_tail scanstring u R
              else push u (scanstring R)
          end).
  rewrite H. reflexivity.
Qed.

Lemma surrogate_tail_other (self : pystr -> option (pystr * pystr)) (u b : N) (R : pystr) :
  b <> 92 -> surrogate_tail self u (b :: R) = push u (self (b :: R)).
Proof.
  intros Hb. apply N.eqb_neq in Hb. unfold surrogate_tail.
  destruct R as [|v [|g1 [|g2 [|g3 [|g4 r3]]]]]; try reflexivity.
  rewrite Hb. reflexivity.
Qed.

Lemma surrogate_tail_simple (self : pystr -> option (pystr * pystr)) (u v : N) (R : pystr) :
  v <> 117 -> surrogate_tail self u (92 :: v :: R) = push u (self (92 :: v :: R)).
Proof.
  intros Hv. apply N.eqb_neq in Hv. unfold surrogate_tail.
  destruct R as [|g1 [|g2 [|g3 [|g4 r3]]]]; try reflexivity.
  rewrite Hv. reflexivity.
Qed.

Lemma surrogate_tail_u (self : pystr -> option (pystr * pystr)) (u g1 g2 g3 g4 u2 : N) (R : pystr) :
  decode_hex4 g1 g2 g3 g4 = Some u2 ->
  surrogate_tail self u (92 :: 117 :: g1 :: g2 :: g3 :: g4 :: R) =
    if is_low_surrogate u2
    then push (join_surrogates u u2) (self R)
    else push u (self (92 :: 117 :: g1 :: g2 :: g3 :: g4 :: R)).
Proof.
  intros H. unfold surrogate_tail. simpl andb. cbv iota. rewrite H. reflexivity.
Qed.

Lemma escape_str_cons (c : N) (s : pystr) :
  escape_str (c :: s) = escape_char c ++ escape_str s.
Proof. reflexivity. Qed.

Lemma high_not_low (u : N) : is_high_surrogate u = true -> is_low_surrogate u = false.
Proof.
  unfold is_high_surrogate, is_low_surrogate. intros H.
  apply andb_true_iff in H as [_ H]. apply N.leb_le in H.
  apply andb_false_iff. left. apply N.leb_gt. lia.
Qed.

(** Whatever follows the closing quote, [scanstring] reads an encoded
    string to its end. *)
Lemma scanstring_escape_str (s : pystr) :
  exists t, forall rest, scanstring (escape_str s ++ 34 :: rest) = Some (t, rest).
Proof.
  remember (length s) as n eqn:Hn.
  revert s Hn. induction n as [n IH] using lt_wf_ind. intros s Hn.
  destruct s as [|c s'].
  { exists []. reflexivity. }
  assert (IH' : exists t, forall rest,
             scanstring (escape_str s' ++ 34 :: rest) = Some (t, rest)).
  { apply (IH (length s')); [subst n; simpl; lia|reflexivity]. }
  destruct IH' as [t' Ht'].
  pose proof (escape_char_shape c) as Hshape.
  remember (escape_char c) as ec eqn:Hesc0. symmetry in Hesc0.
  destruct Hshape as [Hp|x Hx Hs|Hc _|s1 s2 H1 H2 Hh Hl];
    rewrite (escape_str_cons c s'), Hesc0; clear Hesc0.
  - eexists. intros rest. rewrite <- app_assoc.
    simpl app. rewrite scanstring_plain by exact Hp. rewrite Ht'. reflexivity.
  - eexists. intros rest. rewrite <- app_assoc.
    simpl app. rewrite (scanstring_simple x c) by assumption.
    rewrite Ht'. reflexivity.
  - destruct (decode_u_escape c Hc) as (h1 & h2 & h3 & h4 & Hesc & Hd).
    destruct (is_high_surrogate c) eqn:Hhigh.
    2:{ eexists. intros rest. rewrite <- app_assoc, Hesc.
        simpl app. rewrite (scanstring_u _ _ _ _ _ _ Hd), Hhigh, Ht'. reflexivity. }
    destruct s' as [|c2 s''].
    { eexists. intros rest. rewrite <- app_assoc, Hesc.
      simpl app. rewrite (scanstring_u _ _ _ _ _ _ Hd), Hhigh.
      rewrite surrogate_tail_other by discriminate.
      specialize (Ht' rest). simpl app in Ht'. rewrite Ht'. reflexivity. }
    pose proof (escape_char_shape c2) as Hshape.
    remember (escape_char c2) as ec eqn:Hesc0. symmetry in Hesc0.
    destruct Hshape as [Hp|x Hx Hs|Hc2 _|s1 s2 H1 H2 Hh Hl];
      rewrite (escape_str_cons c2 s'') in Ht' |- *; rewrite Hesc0 in Ht' |- *;
      clear Hesc0.
    + eexists. intros rest. specialize (Ht' rest).
      rewrite <- app_assoc, Hesc.
      rewrite <- app_assoc in Ht' |- *.
      simpl app in Ht' |- *. rewrite (scanstring_u _ _ _ _ _ _ Hd), Hhigh.
      rewrite surrogate_tail_other.
      * rewrite Ht'. reflexivity.
      * intros ->. discriminate Hp.
    + eexists. intros rest. specialize (Ht' rest).
      rewrite <- app_assoc, Hesc.
      rewrite <- app_assoc in Ht' |- *.
      simpl app in Ht' |- *. rewrite (scanstring_u _ _ _ _ _ _ Hd), Hhigh.
      rewrite surrogate_tail_simple by exact Hx.
      rewrite Ht'. reflexivity.
    + destruct (decode_u_escape c2 Hc2) as (g1 & g2 & g3 & g4 & Hg & Hd2).
      destruct (is_low_surrogate c2) eqn:Hlow.
      * destruct (IH (length s'')) with (s := s'') as [t'' Ht''];
          [subst n; simpl; lia|reflexivity|].
        eexists. intros rest.
        rewrite <- app_assoc, Hesc.
        rewrite <- app_assoc, Hg.
        simpl app. rewrite (scanstring_u _ _ _ _ _ _ Hd), Hhigh.
        rewrite (surrogate_tail_u _ _ _ _ _ _ _ _ Hd2), Hlow.
        rewrite Ht''. reflexivity.
      * eexists. intros rest. specialize (Ht' rest).
        rewrite <- app_assoc, Hesc.
        rewrite <- app_assoc, Hg in Ht' |- *.
        simpl app in Ht' |- *. rewrite (scanstring_u _ _ _ _ _ _ Hd), Hhigh.
        rewrite (surrogate_tail_u _ _ _ _ _ _ _ _ Hd2), Hlow.
        rewrite Ht'. reflexivity.
    + destruct (decode_u_escape s1 H1) as (g1 & g2 & g3 & g4 & Hg & Hd2).
      eexists. intros rest. specialize (Ht' rest).
      rewrite <- app_assoc, Hesc.
      rewrite <- !app_assoc, Hg in Ht' |- *.
      simpl app in Ht' |- *. rewrite (scanstring_u _ _ _ _ _ _ Hd), Hhigh.
      rewrite (surrogate_tail_u _ _ _ _ _ _ _ _ Hd2).
      rewrite (high_not_low _ Hh). rewrite Ht'. reflexivity.
  - destruct (decode_u_escape s1 H1) as (h1 & h2 & h3 & h4 & Hesc1 & Hd1).
    destruct (decode_u_escape s2 H2) as (g1 & g2 & g3 & g4 & Hesc2 & Hd2).
    eexists. intros rest.
    rewrite <- !app_assoc, Hesc1, Hesc2.
    simpl app. rewrite (scanstring_u _ _ _ _ _ _ Hd1), Hh.
    rewrite (surrogate_tail_u _ _ _ _ _ _ _ _ Hd2), Hl.
    rewrite Ht'. reflexivity.
Qed.

Lemma escape_char_plain (c : N) : plain c = true -> escape_char c = [c].
Proof.
  unfold plain, escape_char. intros H.
  apply andb_true_iff in H as [H H92]. apply andb_true_iff in H as [H H34].
  apply negb_true_iff in H92, H34. rewrite H34, H92, H.
  apply andb_true_iff in H as [Hlo _]. apply N.leb_le in Hlo.
  repeat match goal with
         | |- context [c =? ?k] =>
             replace (c =? k) with false by (symmetry; apply N.eqb_neq; lia)
         end.
  reflexivity.
Qed.

Lemma escape_str_plain (s : pystr) : forallb plain s = true -> escape_str s = s.
Proof.
  induction s as [|c s IH]; [reflexivity|]. simpl. intros H.
  apply andb_true_iff in H as [Hc Hs].
  rewrite escape_str_cons, (escape_char_plain c Hc), (IH Hs). reflexivity.
Qed.

(** A string of plain characters is read back as it is. *)
Lemma scanstring_plain_str (s rest : pystr) :
  forallb plain s = true -> scanstring (s ++ 34 :: rest) = Some (s, rest).
Proof.
  induction s as [|c s IH]; [reflexivity|]. simpl forallb. intros H.
  apply andb_true_iff in H as [Hc Hs].
  simpl app. rewrite (scanstring_plain c _ Hc), (IH Hs). reflexivity.
Qed.

Lemma plain_hex_digit (x : N) : plain (hex_digit (N.land x 15)) = true.
Proof.
  assert (H : N.land x 15 < 16).
  { change 15 with (N.ones 4). rewrite N.land_ones. apply N.mod_lt. discriminate. }
  pose (P := fun d => plain (hex_digit d)).
  assert (HP : all_from P 0 16 = true) by (vm_compute; reflexivity).
  apply (all_from_spec P _ 0 HP); lia.
Qed.

Lemma uuid_str_plain (u : N) : forallb plain (uuid_str u) = true.
Proof.
  unfold uuid_str, hex_fixed.
  cbn [seq rev app map take drop forallb].
  rewrite !plain_hex_digit. reflexivity.
Qed.

Lemma uuid_str_length (u : N) : length (uuid_str u) = 36%nat.
Proof. reflexivity. Qed.

(** ** The decoder never runs out of fuel *)

Lemma skip_ws_length (s : pystr) : (length (skip_ws s) <= length s)%nat.
Proof.
  induction s as [|c s IH]; simpl; [lia|]. destruct (is_ws c); simpl; lia.
Qed.

Lemma push_Some (c : N) (o : option (pystr * pystr)) (t r : pystr) :
  push c o = Some (t, r) -> exists t', o = Some (t', r).
Proof. destruct o as [[t' r']|]; simpl; [|discriminate]. intros [= <- <-]. eauto. Qed.

Lemma scanstring_shorter (s t r : pystr) :
  scanstring s = Some (t, r) -> (length r < length s)%nat.
Proof.
  remember (length s) as n eqn:Hn. revert s t r Hn.
  induction n as [n IH] using lt_wf_ind. intros s t r Hn H.
  assert (rec : forall s' c t r, push c (scanstring s') = Some (t, r) ->
           (length s' < n)%nat -> (length r < length s')%nat).
  { intros s' c' t0 r0 Hp Hlt. apply push_Some in Hp as [t1 Ht1].
    eapply (IH (length s')); eauto. }
  subst n. destruct s as [|c s1]; [discriminate|].
  cbn [scanstring] in H.
  repeat case_match; simplify_eq; cbn [length] in *; try lia.
  all: match goal with
       | Hp : push _ (scanstring ?x) = Some _ |- _ =>
           apply rec in Hp; cbn [length] in *; lia
       end.
Qed.

Lemma span_digits_length (s ds r : pystr) :
  span_digits s = (ds, r) -> (length r <= length s)%nat.
Proof.
  revert ds r. induction s as [|c s IH]; simpl; intros ds r H.
  - inversion H. simpl. lia.
  - destruct (is_digit c).
    + destruct (span_digits s) as [ds' r'] eqn:E. inversion H; subst.
      specialize (IH _ _ eq_refl). lia.
    + inversion H. simpl. lia.
Qed.

Lemma match_number_shorter (s : pystr) (v : pyval) (r : pystr) :
  match_number s = Some (v, r) -> (length r < length s)%nat.
Proof.
  unfold match_number. intros H.
  repeat case_match; simplify_eq; cbn [length] in *;
    repeat match goal with
           | E : span_digits _ = _ |- _ => apply span_digits_length in E
           end;
    cbn [length] in *; lia.
Qed.

Lemma eat_length (p s r : pystr) :
  eat p s = Some r -> (length r + length p = length s)%nat.
Proof.
  revert s. induction p as [|a p IH]; intros s H; simpl in H.
  - inversion H. simpl. lia.
  - destruct s as [|b s]; [discriminate|]. destruct (a =? b); [|discriminate].
    apply IH in H. simpl. lia.
Qed.

Lemma constant_shorter (name : string) (v v' : pyval) (s r : pystr) :
  name <> EmptyString -> constant name v s = Some (v', r) -> (length r < length s)%nat.
Proof.
  unfold constant. intros Hn H. destruct (eat (lit name) s) as [r'|] eqn:E; [|discriminate].
  inversion H; subst. apply eat_length in E.
  destruct name; [congruence|]. simpl in E. lia.
Qed.

Ltac len_facts :=
  repeat match goal with
         | H : scanstring _ = Some _ |- _ => apply scanstring_shorter in H
         | H : skip_ws ?x = _ |- _ =>
             let H' := fresh "Hws" in
             pose proof (skip_ws_length x) as H'; rewrite H in H'; clear H
         | H : match_number _ = Some _ |- _ => apply match_number_shorter in H
         | H : constant _ _ _ = Some _ |- _ =>
             apply constant_shorter in H; [|discriminate]
         end;
  repeat match goal with
         | H : context [length (skip_ws ?x)] |- _ =>
             lazymatch goal with
             | _ : (length (skip_ws x) <= length x)%nat |- _ => fail
             | _ => pose proof (skip_ws_length x)
             end
         | |- context [length (skip_ws ?x)] =>
             lazymatch goal with
             | _ : (length (skip_ws x) <= length x)%nat |- _ => fail
             | _ => pose proof (skip_ws_length x)
             end
         end;
  cbn [length] in *.

Lemma parse_shorter (f : nat) :
  (forall s v r, scan_once f s = Ok v r -> (length r < length s)%nat) /\
  (forall s acc v r, parse_object f s acc = Ok v r -> (length r < length s)%nat) /\
  (forall s acc v r, parse_array f s acc = Ok v r -> (length r < length s)%nat).
Proof.
  induction f as [|f (IHs & IHo & IHa)].
  { repeat split; intros; discriminate. }
  repeat split.
  - intros s v r H. cbn [scan_once] in H. unfold of_option in H.
    repeat case_match; simplify_eq;
      repeat match goal with
             | H : parse_object f _ _ = Ok _ _ |- _ => apply IHo in H
             | H : parse_array f _ _ = Ok _ _ |- _ => apply IHa in H
             end;
      len_facts; lia.
  - intros s acc v r H. cbn [parse_object] in H.
    repeat case_match; simplify_eq;
      repeat match goal with
             | H : scan_once f _ = Ok _ _ |- _ => apply IHs in H
             | H : parse_object f _ _ = Ok _ _ |- _ => apply IHo in H
             end;
      len_facts; lia.
  - intros s acc v r H. cbn [parse_array] in H.
    repeat case_match; simplify_eq;
      repeat match goal with
             | H : scan_once f _ = Ok _ _ |- _ => apply IHs in H
             | H : parse_array f _ _ = Ok _ _ |- _ => apply IHa in H
             end;
      len_facts; lia.
Qed.

Lemma parse_fuel_enough (f : nat) :
  (forall s, (2 * length s < f)%nat -> scan_once f s <> OutOfFuel) /\
  (forall s acc, (2 * length s < f)%nat -> parse_object f s acc <> OutOfFuel) /\
  (forall s acc, (2 * length s + 1 < f)%nat -> parse_array f s acc <> OutOfFuel).
Proof.
  induction f as [|f (IHs & IHo & IHa)].
  { repeat split; intros; lia. }
  destruct (parse_shorter f) as (Ss & So & Sa).
  repeat split.
  - intros s Hf. cbn [scan_once]. unfold of_option.
    repeat case_match; simplify_eq; try discriminate.
    + apply IHo. len_facts. lia.
    + apply IHa. len_facts. lia.
  - intros s acc Hf. cbn [parse_object].
    repeat case_match; simplify_eq; try discriminate;
      repeat match goal with
             | H : scan_once f _ = Ok _ _ |- _ => apply Ss in H
             end.
    + apply IHo. len_facts. lia.
    + match goal with H : scan_once f ?x = OutOfFuel |- _ => apply (IHs x) in H; [destruct H|] end.
      len_facts. lia.
  - intros s acc Hf. cbn [parse_array].
    repeat case_match; simplify_eq; try discriminate;
      repeat match goal with
             | H : scan_once f _ = Ok _ _ |- _ => apply Ss in H
             end.
    + apply IHa. len_facts. lia.
    + match goal with H : scan_once f ?x = OutOfFuel |- _ => apply (IHs x) in H; [destruct H|] end.
      lia.
Qed.

Lemma parse_fuel_step (f : nat) :
  (forall s, scan_once f s <> OutOfFuel -> scan_once (S f) s = scan_once f s) /\
  (forall s acc, parse_object f s acc <> OutOfFuel ->
                 parse_object (S f) s acc = parse_object f s acc) /\
  (forall s acc, parse_array f s acc <> OutOfFuel ->
                 parse_array (S f) s acc = parse_array f s acc).
Proof.
  induction f as [|f (IHs & IHo & IHa)].
  { repeat split; intros; exfalso; auto. }
  repeat split.
  - intros s H. cbn [scan_once] in H |- *.
    destruct s as [|c r]; [reflexivity|].
    destruct (c =? 34); [reflexivity|].
    destruct (c =? 123).
    { destruct (skip_ws r) as [|c' r']; [reflexivity|].
      destruct (c' =? 125); [reflexivity|]. apply IHo. exact H. }
    destruct (c =? 91).
    { destruct (skip_ws r) as [|c' r']; [reflexivity|].
      destruct (c' =? 93); [reflexivity|]. apply IHa. exact H. }
    reflexivity.
  - intros s acc H. cbn [parse_object] in H |- *.
    destruct s as [|c r]; [reflexivity|].
    destruct (c =? 34); [|reflexivity].
    destruct (scanstring r) as [[key r1]|]; [|reflexivity].
    destruct (skip_ws r1) as [|c2 r2]; [reflexivity|].
    destruct (c2 =? 58); [|reflexivity].
    rewrite (IHs (skip_ws r2)) by (intros E; rewrite E in H; apply H; reflexivity).
    destruct (scan_once f (skip_ws r2)) as [v r3| |]; try reflexivity.
    cbv zeta in H |- *.
    destruct (skip_ws r3) as [|c4 r4]; [reflexivity|].
    destruct (c4 =? 125); [reflexivity|].
    destruct (c4 =? 44); [|reflexivity].
    apply IHo. exact H.
  - intros s acc H. cbn [parse_array] in H |- *.
    rewrite (IHs s) by (intros E; rewrite E in H; apply H; reflexivity).
    destruct (scan_once f s) as [v r1| |]; try reflexivity.
    cbv zeta in H |- *.
    destruct (skip_ws r1) as [|c r2]; [reflexivity|].
    destruct (c =? 93); [reflexivity|].
    destruct (c =? 44); [|reflexivity].
    apply IHa. exact H.
Qed.

Lemma scan_once_fuel_le (f f' : nat) (s : pystr) :
  scan_once f s <> OutOfFuel -> (f <= f')%nat -> scan_once f' s = scan_once f s.
Proof.
  intros H Hle. induction Hle as [|m Hle IH]; [reflexivity|].
  rewrite <- IH. apply (parse_fuel_step m). rewrite IH. exact H.
Qed.

(** The result of [scan_once] does not depend on the fuel, once there is
    enough of it. *)
Lemma scan_once_fuel_irrelevant (f f' : nat) (s : pystr) :
  scan_once f s <> OutOfFuel -> (2 * length s < f')%nat ->
  scan_once f' s = scan_once f s.
Proof.
  intros H Hf'. destruct (Nat.le_gt_cases f f') as [Hle|Hgt].
  - apply scan_once_fuel_le; assumption.
  - symmetry. apply scan_once_fuel_le; [|lia].
    apply (parse_fuel_enough f'). exact Hf'.
Qed.

(** [json.loads] fails only for a syntax error, never for lack of fuel. *)
Lemma json_loads_fuel (s : pystr) :
  scan_once (S (S (2 * length s))) (skip_ws s) <> OutOfFuel.
Proof.
  apply (parse_fuel_enough (S (S (2 * length s)))).
  pose proof (skip_ws_length s). lia.
Qed.

(** How a text is shown to be accepted: one value, read with any fuel,
    followed by white space only. *)
Lemma json_loads_intro (f : nat) (s : pystr) (v : pyval) (r : pystr) :
  hd 0 s <> 65279 ->
  scan_once f (skip_ws s) = Ok v r -> skip_ws r = [] ->
  json_loads s = Some v.
Proof.
  intros Hbom Hscan Hr. unfold json_loads.
  assert (E : scan_once (S (S (2 * length s))) (skip_ws s) = Ok v r).
  { rewrite <- Hscan. apply scan_once_fuel_irrelevant.
    - rewrite Hscan. discriminate.
    - pose proof (skip_ws_length s). lia. }
  rewrite E, Hr.
  destruct s as [|c s']; [reflexivity|].
  destruct c as [|p]; [reflexivity|].
  simpl in Hbom.
  repeat (destruct p as [p|p|]; try reflexivity).
  exfalso. apply Hbom. reflexivity.
Qed.

(** ** Running the handler *)

Lemma logged_environ msg w : environ (logged msg w) = environ w.
Proof. unfold logged, logger_info. simpl. destruct (logger_level w <=? INFO); reflexivity. Qed.

Lemma logged_urandom msg w : urandom (logged msg w) = urandom w.
Proof. unfold logged, logger_info. simpl. destruct (logger_level w <=? INFO); reflexivity. Qed.

Lemma logged_utcnow msg w : utcnow (logged msg w) = utcnow w.
Proof. unfold logged, logger_info. simpl. destruct (logger_level w <=? INFO); reflexivity. Qed.

Lemma logged_dynamodb msg w : dynamodb (logged msg w) = dynamodb w.
Proof. unfold logged, logger_info. simpl. destruct (logger_level w <=? INFO); reflexivity. Qed.

Lemma logged_event_bus msg w : event_bus (logged msg w) = event_bus w.
Proof. unfold logged, logger_info. simpl. destruct (logger_level w <=? INFO); reflexivity. Qed.

Lemma logged_logger_level msg w : logger_level (logged msg w) = logger_level w.
Proof. unfold logged, logger_info. simpl. destruct (logger_level w <=? INFO); reflexivity. Qed.

Lemma logged_interp msg w : interp (logged msg w) = interp w.
Proof. unfold logged, logger_info. simpl. destruct (logger_level w <=? INFO); reflexivity. Qed.

Lemma decoder_limit_logged msg w s : decoder_limit (logged msg w) s = decoder_limit w s.
Proof. unfold decoder_limit. rewrite logged_interp. reflexivity. Qed.

Lemma logger_info_run msg w : logger_info msg w = (Returns tt, logged msg w).
Proof. reflexivity. Qed.

Lemma dict_get_truthy (k : pystr) (d : dict) :
  truthy (dict_get k d) = true -> dict_lookup k d = Some (dict_get k d).
Proof.
  unfold dict_get. destruct (dict_lookup k d); [reflexivity|discriminate].
Qed.

(** The value the handler binds to [body], or the exception its [try]
    block raises. *)
Lemma read_body_run (d : dict) (w : world) :
  (let* b := py_get (PDict d) (lit "body") in
   if truthy b then
     let* eb := py_getitem (PDict d) (lit "body") in
     if isinstance_str eb then py_json_loads eb else ret eb
   else ret (PDict [])) w
  = match request_body d with
    | PStr s =>
        if bool_decide (s = []) then (Returns (PDict []), w)
        else match decoder_limit w s with
             | Some l => (Raises (limit_exn l), w)
             | None =>
                 match json_loads s with
                 | Some v => (Returns v, w)
                 | None => (Raises JSONDecodeError, w)
                 end
             end
    | b => (Returns (if truthy b then b else PDict []), w)
    end.
Proof.
  unfold request_body, bind, py_get, ret.
  destruct (truthy (dict_get (lit "body") d)) eqn:T.
  - unfold py_getitem. rewrite (dict_get_truthy _ _ T). unfold ret.
    destruct (dict_get (lit "body") d) as [| | | |s| |] eqn:E;
      try (cbn [isinstance_str]; rewrite T; reflexivity).
    simpl in T. apply negb_true_iff in T. rewrite T.
    simpl. destruct (decoder_limit w s); [reflexivity|].
    destruct (json_loads s); reflexivity.
  - destruct (dict_get (lit "body") d) as [| | | |s| |] eqn:E;
      try (rewrite T; reflexivity).
    simpl in T. apply negb_false_iff in T. rewrite T. reflexivity.
Qed.

Lemma environment_of_logged msg w : environment_of (logged msg w) = environment_of w.
Proof. unfold environment_of. rewrite logged_environ. reflexivity. Qed.

(** The handler on an event that is a dict: the exception of a limit the
    decoder ran into on the body, or one of two responses. *)
Lemma lambda_handler_run (d : dict) (context : option LambdaContext) (w : world) :
  lambda_handler (PDict d) context w =
    match body_limit d w with
    | Some l => (Raises (limit_exn l), logged (received_msg (PDict d)) w)
    | None =>
        if body_rejected d
        then (Returns invalid_json_response, logged (received_msg (PDict d)) w)
        else (Returns (success_response context w),
              logged (created_msg w) (logged (received_msg (PDict d)) w))
    end.
Proof.
  unfold lambda_handler.
  unfold bind at 1. rewrite logger_info_run. fold (received_msg (PDict d)).
  set (w1 := logged (received_msg (PDict d)) w).
  unfold bind at 1. unfold os_environ_get at 1.
  unfold bind at 1. unfold os_environ_get at 1.
  unfold bind at 1. unfold os_environ_get at 1.
  unfold try_except_return. rewrite read_body_run.
  assert (Hlid : uuid_str (uuid4 (urandom w1)) = lead_id_of w)
    by (unfold lead_id_of, w1; rewrite logged_urandom; reflexivity).
  assert (Hts : isoformat (utcnow w1) ++ lit "Z" = timestamp_of w)
    by (unfold timestamp_of, w1; rewrite logged_utcnow; reflexivity).
  assert (Henv : match environ w1 !! lit "ENVIRONMENT" with
                 | Some v => PStr v
                 | None => PStr (lit "dev")
                 end = environment_of w)
    by (unfold environment_of, w1; rewrite logged_environ; reflexivity).
  assert (Hok : forall body : pyval,
    (let* lead_id := str_uuid4 in
     let* now := utcnow_isoformat in
     let timestamp := now ++ lit "Z" in
     let response_body :=
       PDict [(lit "success", PBool true);
              (lit "leadId", PStr lead_id);
              (lit "message", PStr (lit "Thank you for your submission"));
              (lit "_meta",
               PDict [(lit "environment",
                       match environ w1 !! lit "ENVIRONMENT" with
                       | Some v => PStr v
                       | None => PStr (lit "dev")
                       end);
                      (lit "timestamp", PStr timestamp);
                      (lit "placeholder", PBool true)])] in
     let* _ := logger_info (lit "Created lead: " ++ lead_id) in
     ret (PDict [(lit "statusCode", PInt 200);
                 (lit "headers",
                  PDict [(lit "Content-Type", PStr (lit "application/json"));
                         (lit "X-Request-Id",
                          PStr (match context with
                                | Some c => aws_request_id c
                                | None => lead_id
                                end))]);
                 (lit "body", PStr (json_dumps response_body))])) w1
    = (Returns (success_response context w), logged (created_msg w) w1)).
  { intros _. unfold bind, str_uuid4, utcnow_isoformat, ret. cbv zeta.
    rewrite logger_info_run. rewrite Hlid, Hts, Henv. reflexivity. }
  unfold body_rejected, body_limit.
  destruct (request_body d) as [| | | |s| |]; try exact (Hok PNone).
  destruct (bool_decide (s = [])); [exact (Hok PNone)|].
  unfold w1 at 1. rewrite decoder_limit_logged.
  destruct (decoder_limit w s) as [l|].
  { destruct l; reflexivity. }
  destruct (json_loads s) as [v|] eqn:E.
  - exact (Hok PNone).
  - reflexivity.
Qed.

(** The handler on an event that is not a dict: [event.get] raises. *)
Lemma lambda_handler_not_dict (event : pyval) (context : option LambdaContext) (w : world) :
  (forall d, event <> PDict d) ->
  lambda_handler event context w =
    (Raises AttributeError, logged (received_msg event) w).
Proof.
  intros H. unfold lambda_handler.
  unfold bind at 1. rewrite logger_info_run. fold (received_msg event).
  destruct event; try reflexivity. exfalso. eapply H. reflexivity.
Qed.

(** ** Reading back the bodies the handler writes *)

Lemma scan_once_string (f : nat) (r t r' : pystr) :
  scanstring r = Some (t, r') -> scan_once (S f) (34 :: r) = Ok (PStr t) r'.
Proof. intros H. cbn [scan_once]. change (34 =? 34) with true. cbv iota. rewrite H. reflexivity. Qed.

Lemma scan_once_true (f : nat) (r : pystr) :
  scan_once (S f) (116 :: 114 :: 117 :: 101 :: r) = Ok (PBool true) r.
Proof. reflexivity. Qed.

Lemma scan_once_false (f : nat) (r : pystr) :
  scan_once (S f) (102 :: 97 :: 108 :: 115 :: 101 :: r) = Ok (PBool false) r.
Proof. reflexivity. Qed.

Lemma scan_once_object (f : nat) (r : pystr) :
  scan_once (S f) (123 :: 34 :: r) = parse_object f (34 :: r) [].
Proof. reflexivity. Qed.

(** One member followed by [", "] and the next key. *)
Lemma parse_object_next (f : nat) (r key r2 : pystr) (v : pyval) (r4 : pystr) (acc : dict) :
  scanstring r = Some (key, 58 :: 32 :: r2) ->
  skip_ws r2 = r2 ->
  scan_once f r2 = Ok v (44 :: 32 :: 34 :: r4) ->
  parse_object (S f) (34 :: r) acc = parse_object f (34 :: r4) (dict_set key v acc).
Proof.
  intros Hk Hws Hv. cbn [parse_object]. change (34 =? 34) with true. cbv iota.
  rewrite Hk. change (skip_ws (58 :: 32 :: r2)) with (58 :: 32 :: r2).
  change (58 =? 58) with true. cbv iota.
  change (skip_ws (32 :: r2)) with (skip_ws r2). rewrite Hws, Hv. reflexivity.
Qed.

(** The last member, followed by the closing brace. *)
Lemma parse_object_last (f : nat) (r key r2 : pystr) (v : pyval) (r4 : pystr) (acc : dict) :
  scanstring r = Some (key, 58 :: 32 :: r2) ->
  skip_ws r2 = r2 ->
  scan_once f r2 = Ok v (125 :: r4) ->
  parse_object (S f) (34 :: r) acc = Ok (PDict (dict_set key v acc)) r4.
Proof.
  intros Hk Hws Hv. cbn [parse_object]. change (34 =? 34) with true. cbv iota.
  rewrite Hk. change (skip_ws (58 :: 32 :: r2)) with (58 :: 32 :: r2).
  change (58 =? 58) with true. cbv iota.
  change (skip_ws (32 :: r2)) with (skip_ws r2). rewrite Hws, Hv. reflexivity.
Qed.

Ltac eval_lits :=
  repeat match goal with
         | |- context [lit ?s] =>
             let v := eval vm_compute in (lit s) in change (lit s) with v
         end;
  repeat match goal with
         | |- context [escape_str (?c :: ?x)] =>
             let v := eval vm_compute in (escape_str (c :: x)) in
             change (escape_str (c :: x)) with v
         end.

Lemma scanstring_plain_exact (s t : pystr) :
  (forall rest, scanstring (escape_str s ++ 34 :: rest) = Some (t, rest)) ->
  forallb plain s = true -> t = s.
Proof.
  intros H Hs. specialize (H []).
  rewrite (escape_str_plain s Hs), (scanstring_plain_str s [] Hs) in H.
  congruence.
Qed.

Ltac normalise_dumps :=
  cbn [json_dumps map fst snd join app];
  unfold encode_basestring_ascii;
  eval_lits;
  repeat (rewrite <- app_assoc || rewrite <- app_comm_cons);
  cbn [app skip_ws is_ws N.eqb Pos.eqb orb].

(** The body of a success response is read back by [json.loads]; a string
    of plain characters comes back as it is. *)
Lemma success_body_decodes (lid env ts : pystr) :
  forallb plain lid = true ->
  exists env' ts',
    json_loads (json_dumps (success_body lid (PStr env) ts))
    = Some (success_body lid (PStr env') ts')
    /\ (forallb plain env = true -> env' = env)
    /\ (forallb plain ts = true -> ts' = ts).
Proof.
  intros Hlid.
  destruct (scanstring_escape_str env) as [env' Henv].
  destruct (scanstring_escape_str ts) as [ts' Hts].
  exists env', ts'.
  split; [|split; apply scanstring_plain_exact; assumption].
  apply (json_loads_intro 20) with (r := []); [discriminate| |reflexivity].
  unfold success_body. normalise_dumps.
  rewrite (escape_str_plain lid Hlid).
  rewrite scan_once_object.
  erewrite parse_object_next; [|reflexivity|reflexivity|apply scan_once_true].
  erewrite parse_object_next;
    [|reflexivity|reflexivity|apply scan_once_string, scanstring_plain_str, Hlid].
  erewrite parse_object_next;
    [|reflexivity|reflexivity|apply scan_once_string; reflexivity].
  erewrite parse_object_last; [|reflexivity|reflexivity|].
  2:{ rewrite scan_once_object.
      erewrite parse_object_next;
        [|reflexivity|reflexivity|apply scan_once_string, Henv].
      erewrite parse_object_next;
        [|reflexivity|reflexivity|apply scan_once_string, Hts].
      erewrite parse_object_last;
        [reflexivity|reflexivity|reflexivity|apply scan_once_true]. }
  reflexivity.
Qed.

(** The body [_error_response] writes without details is read back too. *)
Lemma error_body_decodes (code message : pystr) :
  exists code' message',
    json_loads (json_dumps (PDict [(lit "success", PBool false);
                                   (lit "error", PDict [(lit "code", PStr code);
                                                        (lit "message", PStr message)])]))
    = Some (PDict [(lit "success", PBool false);
                   (lit "error", PDict [(lit "code", PStr code');
                                        (lit "message", PStr message')])])
    /\ (forallb plain code = true -> code' = code)
    /\ (forallb plain message = true -> message' = message).
Proof.
  destruct (scanstring_escape_str code) as [code' Hcode].
  destruct (scanstring_escape_str message) as [message' Hmsg].
  exists code', message'.
  split; [|split; apply scanstring_plain_exact; assumption].
  apply (json_loads_intro 20) with (r := []); [discriminate| |reflexivity].
  normalise_dumps.
  rewrite scan_once_object.
  erewrite parse_object_next; [|reflexivity|reflexivity|apply scan_once_false].
  erewrite parse_object_last; [|reflexivity|reflexivity|].
  2:{ rewrite scan_once_object.
      erewrite parse_object_next;
        [|reflexivity|reflexivity|apply scan_once_string, Hcode].
      erewrite parse_object_last;
        [reflexivity|reflexivity|reflexivity|apply scan_once_string, Hmsg]. }
  reflexivity.
Qed.

(** ** The two responses *)







Lemma environment_of_str (w : world) :
  environment_of w = PStr (default (lit "dev") (environ w !! lit "ENVIRONMENT")).
Proof. unfold environment_of. destruct (environ w !! lit "ENVIRONMENT"); reflexivity. Qed.

Lemma success_response_status context w :
  field "statusCode" (success_response context w) = PInt 200.
Proof. reflexivity. Qed.

Lemma success_response_decodes context w :
  exists env' ts',
    decoded_body (success_response context w)
    = Some (success_body (lead_id_of w) (PStr env') ts')
    /\ (forallb plain (default (lit "dev") (environ w !! lit "ENVIRONMENT")) = true ->
        env' = default (lit "dev") (environ w !! lit "ENVIRONMENT")).
Proof.
  destruct (success_body_decodes (lead_id_of w)
              (default (lit "dev") (environ w !! lit "ENVIRONMENT"))
              (timestamp_of w) (uuid_str_plain _)) as (env' & ts' & H & He & _).
  exists env', ts'. split; [|exact He].
  change (decoded_body (success_response context w))
    with (json_loads (json_dumps (success_body (lead_id_of w) (environment_of w)
                                    (timestamp_of w)))).
  rewrite environment_of_str. exact H.
Qed.

Lemma invalid_json_response_decodes :
  decoded_body invalid_json_response
  = Some (PDict [(lit "success", PBool false);
                 (lit "error",
                  PDict [(lit "code", PStr (lit "INVALID_JSON"));
                         (lit "message", PStr (lit "Request body must be valid JSON"))])]).
Proof. vm_compute. reflexivity. Qed.

(** Every return of the handler is one of the two responses. *)
Lemma lambda_handler_returns event context w r w' :
  lambda_handler event context w = (Returns r, w') ->
  exists d, event = PDict d /\ body_limit d w = None /\
    ((body_rejected d = true /\ r = invalid_json_response)
     \/ (body_rejected d = false /\ r = success_response context w)).
Proof.
  intros H. destruct event as [| | | | | |d];
    try (rewrite lambda_handler_not_dict in H by discriminate; discriminate).
  exists d. split; [reflexivity|].
  rewrite lambda_handler_run in H.
  destruct (body_limit d w); [discriminate|]. split; [reflexivity|].
  destruct (body_rejected d); inversion H; subst; auto.
Qed.



Lemma body_limit_interp (d : dict) (w1 w2 : world) :
  (forall s, decoder_limit w1 s = decoder_limit w2 s) ->
  body_limit d w1 = body_limit d w2.
Proof.
  intros H. unfold body_limit.
  destruct (request_body d); try reflexivity.
  destruct (bool_decide _); [reflexivity|apply H].
Qed.

(** The outcome depends on the world through [ENVIRONMENT], the random
    bytes, the clock and the limits of the decoder only. *)
Lemma response_depends_on (event : pyval) (context : option LambdaContext) (w1 w2 : world) :
  environ w1 !! lit "ENVIRONMENT" = environ w2 !! lit "ENVIRONMENT" ->
  urandom w1 = urandom w2 ->
  utcnow w1 = utcnow w2 ->
  (forall s, decoder_limit w1 s = decoder_limit w2 s) ->
  fst (lambda_handler event context w1) = fst (lambda_handler event context w2).
Proof.
  intros He Hu Ht Hi.
  assert (Hs : success_response context w1 = success_response context w2).
  { unfold success_response, lead_id_of, environment_of, timestamp_of.
    rewrite He, Hu, Ht. reflexivity. }
  destruct event as [| | | | | |d];
    try (rewrite !lambda_handler_not_dict by discriminate; reflexivity).
  rewrite !lambda_handler_run, (body_limit_interp d w1 w2 Hi).
  destruct (body_limit d w2); [reflexivity|].
  destruct (body_rejected d); simpl; congruence.
Qed.

(** What a call leaves behind: only log records are added. *)
Lemma lambda_handler_frame (event : pyval) (context : option LambdaContext) (w : world) :
  let w' := snd (lambda_handler event context w) in
  environ w' = environ w /\ urandom w' = urandom w /\ utcnow w' = utcnow w
  /\ logger_level w' = logger_level w
  /\ dynamodb w' = dynamodb w /\ event_bus w' = event_bus w
  /\ exists msgs, log w' = log w ++ map (fun m => (INFO, m)) msgs.
Proof.
  assert (Hlog : forall m w0, exists msgs,
             log (logged m w0) = log w0 ++ map (fun m => (INFO, m)) msgs).
  { intros m w0. unfold logged, logger_info. simpl.
    destruct (logger_level w0 <=? INFO).
    - exists [m]. reflexivity.
    - exists []. simpl. rewrite app_nil_r. reflexivity. }
  assert (H1 : forall m,
    let w' := logged m w in
    environ w' = environ w /\ urandom w' = urandom w /\ utcnow w' = utcnow w
    /\ logger_level w' = logger_level w
    /\ dynamodb w' = dynamodb w /\ event_bus w' = event_bus w
    /\ exists msgs, log w' = log w ++ map (fun m => (INFO, m)) msgs).
  { intros m. cbv zeta.
    rewrite logged_environ, logged_urandom, logged_utcnow, logged_logger_level,
      logged_dynamodb, logged_event_bus.
    repeat split; try reflexivity. apply Hlog. }
  destruct event as [| | | | | |d];
    try (rewrite lambda_handler_not_dict by discriminate; apply H1).
  rewrite lambda_handler_run.
  destruct (body_limit d w); [apply H1|].
  destruct (body_rejected d); [apply H1|].
  cbv zeta. cbn [snd].
  rewrite !logged_environ, !logged_urandom, !logged_utcnow, !logged_logger_level,
    !logged_dynamodb, !logged_event_bus.
  repeat split; try reflexivity.
  destruct (Hlog (received_msg (PDict d)) w) as [m1 E1].
  destruct (Hlog (created_msg w) (logged (received_msg (PDict d)) w)) as [m2 E2].
  exists (m1 ++ m2). rewrite E2, E1, map_app, app_assoc. reflexivity.
Qed.

(** A call leaves the interpreter as it was. *)
Lemma lambda_handler_interp (event : pyval) (context : option LambdaContext) (w : world) :
  interp (snd (lambda_handler event context w)) = interp w.
Proof.
  destruct event as [| | | | | |d];
    try (rewrite lambda_handler_not_dict by discriminate; apply logged_interp).
  rewrite lambda_handler_run.
  destruct (body_limit d w); [apply logged_interp|].
  destruct (body_rejected d); cbn [snd]; rewrite ?logged_interp; reflexivity.
Qed.

(** * The claims of the specification *)













(** C5: the identifier is fabricated. On the success path the [leadId] of
    the decoded body is the string form of the UUID generated for the call,
    [str(uuid.uuid4())], whatever the request holds, and [message] is the
    fixed text. *)
Theorem C5_fabricated_lead_id (event : pyval) (context : option LambdaContext)
    (w : world) (r : pyval) (w' : world) :
  lambda_handler event context w = (Returns r, w') ->
  field "statusCode" r = PInt 200 ->
  exists o,
    decoded_body r = Some o
    /\ field "leadId" o = PStr (uuid_str (uuid4 (urandom w)))
    /\ field "message" o = PStr (lit "Thank you for your submission").
Proof.
  intros H Hst.
  apply lambda_handler_returns in H as (d & -> & Hlim & [[Hrej ->]|[Hacc ->]]);
    [discriminate Hst|].
  destruct (success_response_decodes context w) as (env' & ts' & Hdec & _).
  eexists. split; [exact Hdec|]. split; reflexivity.
Qed.

Lemma C5_fabricated_lead_id_witness :
  exists o,
    decoded_body (success_response None example_world) = Some o
    /\ field "leadId" o = PStr (lit "01020304-0506-4708-890a-0b0c0d0e0fff")
    /\ field "message" o = PStr (lit "Thank you for your submission").
Proof.
  apply (C5_fabricated_lead_id (PDict example_event) None example_world
           (success_response None example_world)
           (snd (lambda_handler (PDict example_event) None example_world))).
  - vm_compute. reflexivity.
  - reflexivity.
Defined.








Lemma success_response_body context w :
  field "body" (success_response context w)
  = PStr (json_dumps (success_body (lead_id_of w) (environment_of w) (timestamp_of w))).
Proof. reflexivity. Qed.

Lemma decoded_body_eq (r : pyval) (s : pystr) :
  field "body" r = PStr s -> decoded_body r = json_loads s.
Proof. unfold decoded_body. intros ->. reflexivity. Qed.

Lemma success_response_well_formed context w :
  well_formed_response (success_response context w).
Proof.
  destruct (success_response_decodes context w) as (env' & ts' & Hdec & _).
  rewrite (decoded_body_eq _ _ (success_response_body context w)) in Hdec.
  unfold well_formed_response.
  eexists _, 200%Z, _, _, _, true.
  split; [reflexivity|]. split; [reflexivity|]. split; [reflexivity|].
  split; [reflexivity|]. split; [apply success_response_body|].
  split; [exact Hdec|].
  split; [reflexivity|]. split; reflexivity.
Qed.

Lemma invalid_json_response_well_formed : well_formed_response invalid_json_response.
Proof.
  unfold well_formed_response.
  eexists _, 400%Z, _, _, _, false.
  split; [reflexivity|]. split; [reflexivity|]. split; [reflexivity|].
  split; [reflexivity|]. split; [reflexivity|].
  split; [exact invalid_json_response_decodes|].
  split; [reflexivity|]. split; discriminate.
Qed.

(** C9: every response the handler returns, on the success path and on the
    error path through [_error_response], is a dict with a [statusCode], a
    [headers] dict with [Content-Type = application/json] and a string
    [body] holding JSON whose [success] is true if and only if the status
    is 200. *)
Theorem C9_response_shape (event : pyval) (context : option LambdaContext)
    (w : world) (r : pyval) (w' : world) :
  lambda_handler event context w = (Returns r, w') ->
  well_formed_response r.
Proof.
  intros H.
  apply lambda_handler_returns in H as (d & -> & Hlim & [[Hrej ->]|[Hacc ->]]).
  - apply invalid_json_response_well_formed.
  - apply success_response_well_formed.
Qed.

Lemma C9_response_shape_witness :
  well_formed_response invalid_json_response.
Proof.
  apply (C9_response_shape (PDict broken_event) None example_world
           invalid_json_response
           (snd (lambda_handler (PDict broken_event) None example_world))).
  vm_compute. reflexivity.
Defined.

(** C10: on the success path the [X-Request-Id] header is
    [context.aws_request_id] when there is a context, and the generated
    [leadId] otherwise; a response built by [_error_response] has no
    [X-Request-Id] header. *)
Theorem C10_request_id_header (event : pyval) (context : option LambdaContext)
    (w : world) (r : pyval) (w' : world) :
  lambda_handler event context w = (Returns r, w') ->
  (field "statusCode" r = PInt 200 ->
   exists o lead_id,
     decoded_body r = Some o
     /\ field "leadId" o = PStr lead_id
     /\ field "X-Request-Id" (field "headers" r)
        = PStr (match context with
                | Some c => aws_request_id c
                | None => lead_id
                end))
  /\ (field "statusCode" r <> PInt 200 ->
      has_key "X-Request-Id" (field "headers" r) = false)
  /\ (forall status_code code message details,
        has_key "X-Request-Id"
          (field "headers" (_error_response status_code code message details)) = false).
Proof.
  intros H. split; [|split].
  - intros Hst.
    apply lambda_handler_returns in H as (d & -> & Hlim & [[Hrej ->]|[Hacc ->]]);
      [discriminate Hst|].
    destruct (success_response_decodes context w) as (env' & ts' & Hdec & _).
    exists (success_body (lead_id_of w) (PStr env') ts'), (lead_id_of w).
    split; [exact Hdec|]. split; reflexivity.
  - intros Hst.
    apply lambda_handler_returns in H as (d & -> & Hlim & [[Hrej ->]|[Hacc ->]]).
    + reflexivity.
    + exfalso. apply Hst. reflexivity.
  - intros. reflexivity.
Qed.

Lemma C10_request_id_header_witness :
  exists o lead_id,
    decoded_body (success_response (Some example_context) example_world) = Some o
    /\ field "leadId" o = PStr lead_id
    /\ field "X-Request-Id" (field "headers" (success_response (Some example_context) example_world))
       = PStr (lit "c6af9ac6-7b61-11e6-9a41-93e8deadbeef").
Proof.
  apply (C10_request_id_header (PDict example_event) (Some example_context) example_world
           (success_response (Some example_context) example_world)
           (snd (lambda_handler (PDict example_event) (Some example_context) example_world))).
  - vm_compute. reflexivity.
  - reflexivity.
Defined.

(** * Further properties of the module *)

(** ** Exact round trip of strings *)

Lemma astral_join (n : N) :
  n < 1048576 ->
  join_surrogates (N.lor 55296 (N.land (N.shiftr n 10) 1023))
                  (N.lor 56320 (N.land n 1023)) = 65536 + n.
Proof.
  intros Hn.
  assert (HP : all_from astral_roundtrip 0 (Z.to_nat 1048576) = true)
    by (vm_compute; reflexivity).
  assert (H : astral_roundtrip n = true).
  { apply (all_from_spec _ _ 0 HP); [lia|]. rewrite Z_nat_N. exact Hn. }
  apply N.eqb_eq in H. exact H.
Qed.

Lemma scalar_not_high (c : N) : scalar c = true -> is_high_surrogate c = false.
Proof.
  unfold scalar, is_high_surrogate. intros H.
  apply andb_true_iff in H as [_ H]. apply negb_true_iff in H.
  apply andb_false_iff in H. apply andb_false_iff.
  destruct H as [H|H]; [left; exact H|].
  right. apply N.leb_gt in H. apply N.leb_gt. lia.
Qed.

(** A string of scalar values is read back as it is. *)
Lemma scanstring_escape_scalar (s rest : pystr) :
  forallb scalar s = true ->
  scanstring (escape_str s ++ 34 :: rest) = Some (s, rest).
Proof.
  induction s as [|c s IH]; [reflexivity|].
  simpl forallb. intros H. apply andb_true_iff in H as [Hc Hs].
  specialize (IH Hs). rewrite escape_str_cons, <- app_assoc.
  pose proof (scalar_not_high c Hc) as Hnh.
  unfold escape_char.
  destruct (c =? 34) eqn:E1.
  { apply N.eqb_eq in E1 as ->. simpl app.
    rewrite (scanstring_simple 34 34) by (discriminate || reflexivity).
    rewrite IH. reflexivity. }
  destruct (c =? 92) eqn:E2.
  { apply N.eqb_eq in E2 as ->. simpl app.
    rewrite (scanstring_simple 92 92) by (discriminate || reflexivity).
    rewrite IH. reflexivity. }
  destruct (c =? 10) eqn:E3.
  { apply N.eqb_eq in E3 as ->. simpl app.
    rewrite (scanstring_simple 110 10) by (discriminate || reflexivity).
    rewrite IH. reflexivity. }
  destruct (c =? 13) eqn:E4.
  { apply N.eqb_eq in E4 as ->. simpl app.
    rewrite (scanstring_simple 114 13) by (discriminate || reflexivity).
    rewrite IH. reflexivity. }
  destruct (c =? 9) eqn:E5.
  { apply N.eqb_eq in E5 as ->. simpl app.
    rewrite (scanstring_simple 116 9) by (discriminate || reflexivity).
    rewrite IH. reflexivity. }
  destruct (c =? 12) eqn:E6.
  { apply N.eqb_eq in E6 as ->. simpl app.
    rewrite (scanstring_simple 102 12) by (discriminate || reflexivity).
    rewrite IH. reflexivity. }
  destruct (c =? 8) eqn:E7.
  { apply N.eqb_eq in E7 as ->. simpl app.
    rewrite (scanstring_simple 98 8) by (discriminate || reflexivity).
    rewrite IH. reflexivity. }
  destruct ((32 <=? c) && (c <=? 126)) eqn:E8.
  { simpl app. rewrite scanstring_plain.
    - rewrite IH. reflexivity.
    - unfold plain. rewrite E8, E1, E2. reflexivity. }
  destruct (c <? 65536) eqn:E9.
  { apply N.ltb_lt in E9.
    destruct (decode_u_escape c E9) as (h1 & h2 & h3 & h4 & -> & Hd).
    simpl app. rewrite (scanstring_u _ _ _ _ _ _ Hd), Hnh, IH. reflexivity. }
  cbv zeta. apply N.ltb_ge in E9.
  assert (Hlt : c - 65536 < 1048576).
  { unfold scalar in Hc. apply andb_true_iff in Hc as [Hc _].
    apply N.ltb_lt in Hc. lia. }
  destruct (high_unit (N.land (N.shiftr (c - 65536) 10) 1023)) as [H1 H2];
    [apply land_1023_lt|].
  destruct (low_unit (N.land (c - 65536) 1023)) as [H3 H4];
    [apply land_1023_lt|].
  destruct (decode_u_escape _ H1) as (h1 & h2 & h3 & h4 & -> & Hd1).
  destruct (decode_u_escape _ H3) as (g1 & g2 & g3 & g4 & -> & Hd2).
  rewrite <- app_assoc. simpl app.
  rewrite (scanstring_u _ _ _ _ _ _ Hd1), H2.
  rewrite (surrogate_tail_u _ _ _ _ _ _ _ _ Hd2), H4.
  rewrite (astral_join _ Hlt), IH.
  replace (65536 + (c - 65536)) with c by lia. reflexivity.
Qed.

(** ** Logging, and events that are not dicts *)

Lemma logged_log (msg : pystr) (w : world) :
  log (logged msg w) = log w ++ (if logger_level w <=? INFO then [(INFO, msg)] else []).
Proof.
  unfold logged, logger_info. simpl.
  destruct (logger_level w <=? INFO); simpl; [reflexivity|].
  rewrite app_nil_r. reflexivity.
Qed.

Lemma logged_quiet (msg : pystr) (w : world) :
  INFO < logger_level w -> logged msg w = w.
Proof.
  intros H. unfold logged, logger_info. simpl.
  apply N.leb_gt in H. rewrite H. reflexivity.
Qed.












Lemma lambda_handler_quiet (event : pyval) (context : option LambdaContext) (w : world) :
  INFO < logger_level w -> snd (lambda_handler event context w) = w.
Proof.
  intros H.
  destruct event as [| | | | | |d];
    try (rewrite lambda_handler_not_dict by discriminate; cbn [snd];
         apply logged_quiet; exact H).
  rewrite lambda_handler_run.
  destruct (body_limit d w); [apply logged_quiet; exact H|].
  destruct (body_rejected d); cbn [snd].
  - apply logged_quiet. exact H.
  - rewrite (logged_quiet (received_msg (PDict d)) w H).
    apply logged_quiet. exact H.
Qed.

(** X4: with the logger above [INFO] a call changes nothing at all: the
    world after it is the world before it, whatever the event. *)
Theorem X4_quiet_logger_no_effect (event : pyval) (context : option LambdaContext)
    (w : world) :
  INFO < logger_level w ->
  snd (lambda_handler event context w) = w.
Proof. apply lambda_handler_quiet. Qed.

Lemma X4_quiet_logger_no_effect_witness :
  snd (lambda_handler (PDict example_event) None
         (snd (logger_setLevel (PStr (lit "WARNING")) example_world)))
  = snd (logger_setLevel (PStr (lit "WARNING")) example_world).
Proof.
  apply (X4_quiet_logger_no_effect (PDict example_event) None
           (snd (logger_setLevel (PStr (lit "WARNING")) example_world))).
  vm_compute. reflexivity.
Defined.

(** ** The statements run at import *)

Lemma level_of_name_known (name : pystr) :
  is_Some (level_of_name name) <-> In name level_names.
Proof.
  unfold level_of_name, level_names. split.
  - intros H.
    repeat match goal with
           | H : is_Some (if bool_decide (name = ?x) then _ else _) |- _ =>
               destruct (bool_decide (name = x)) eqn:E;
               [apply bool_decide_eq_true in E; subst; simpl; tauto|clear E]
           end.
    destruct H as [x Hx]. discriminate Hx.
  - intros H. simpl in H.
    repeat (destruct H as [<-|H]; [vm_compute; eauto|]). destruct H.
Qed.

Lemma module_init_run (w : world) :
  module_init w
  = logger_setLevel (match environ w !! lit "LOG_LEVEL" with
                     | Some v => PStr v
                     | None => PStr (lit "INFO")
                     end) w.
Proof. reflexivity. Qed.

(** X5: the import succeeds exactly when [LOG_LEVEL] is unset or one of
    the eight level names, in capitals; any other value raises [ValueError]
    and leaves everything as it was. When it succeeds, only the level of
    the logger changes, to [INFO] when [LOG_LEVEL] is unset. *)
Theorem X5_module_init (w : world) :
  ((exists w', module_init w = (Returns tt, w'))
   <-> (environ w !! lit "LOG_LEVEL" = None
        \/ exists name, environ w !! lit "LOG_LEVEL" = Some name /\ In name level_names))
  /\ (forall name, environ w !! lit "LOG_LEVEL" = Some name -> ~ In name level_names ->
                   module_init w = (Raises ValueError, w))
  /\ (environ w !! lit "LOG_LEVEL" = None ->
      logger_level (snd (module_init w)) = INFO)
  /\ environ (snd (module_init w)) = environ w
  /\ log (snd (module_init w)) = log w
  /\ dynamodb (snd (module_init w)) = dynamodb w
  /\ event_bus (snd (module_init w)) = event_bus w.
Proof.
  rewrite module_init_run. unfold logger_setLevel.
  destruct (environ w !! lit "LOG_LEVEL") as [name|] eqn:E.
  - destruct (level_of_name name) as [l|] eqn:El.
    + assert (Hin : In name level_names)
        by (apply level_of_name_known; rewrite El; eauto).
      repeat split; try reflexivity; try discriminate.
      * intros _. right. eauto.
      * intros _. eauto.
      * intros name' [= <-] Hn. contradiction.
    + assert (Hin : ~ In name level_names).
      { intros Hin. apply level_of_name_known in Hin. rewrite El in Hin.
        destruct Hin as [x Hx]. discriminate Hx. }
      repeat split; try reflexivity; try discriminate.
      * intros (w' & Hw'). discriminate Hw'.
      * intros [H|(name' & [= <-] & Hn)]; [discriminate H|contradiction].
  - repeat split; try reflexivity; try discriminate.
    + intros _. left. reflexivity.
    + intros _. eauto.
Qed.

Lemma X5_module_init_witness :
  module_init (with_environ {[ lit "LOG_LEVEL" := lit "info" ]} example_world)
  = (Raises ValueError, with_environ {[ lit "LOG_LEVEL" := lit "info" ]} example_world).
Proof.
  apply (X5_module_init (with_environ {[ lit "LOG_LEVEL" := lit "info" ]} example_world))
    with (name := lit "info").
  - reflexivity.
  - intros H. vm_compute in H. repeat (destruct H as [H|H]; [discriminate H|]). exact H.
Defined.

(** X6: a cold start. With a [LOG_LEVEL] that is no level name the import
    fails and the handler never runs: no response, nothing logged. With a
    valid or unset [LOG_LEVEL] the outcome is the one of the handler alone,
    and for a level above [INFO] the log stays as it was. *)
Theorem X6_cold_start (event : pyval) (context : option LambdaContext) (w : world) :
  (forall name, environ w !! lit "LOG_LEVEL" = Some name -> ~ In name level_names ->
                cold_start event context w = (Raises ValueError, w))
  /\ (environ w !! lit "LOG_LEVEL" = None
      \/ (exists name, environ w !! lit "LOG_LEVEL" = Some name /\ In name level_names) ->
      fst (cold_start event context w) = fst (lambda_handler event context w))
  /\ (forall name,
        environ w !! lit "LOG_LEVEL" = Some name ->
        In name [lit "WARN"; lit "WARNING"; lit "ERROR"; lit "CRITICAL"; lit "FATAL"] ->
        log (snd (cold_start event context w)) = log w).
Proof.
  unfold cold_start, bind. rewrite module_init_run. unfold logger_setLevel.
  split; [|split].
  - intros name E Hn. rewrite E.
    destruct (level_of_name name) as [l|] eqn:El; [|reflexivity].
    exfalso. apply Hn, level_of_name_known. rewrite El. eauto.
  - intros H.
    assert (Hl : exists l,
               match environ w !! lit "LOG_LEVEL" with
               | Some v => level_of_name v
               | None => level_of_name (lit "INFO")
               end = Some l).
    { destruct H as [->|(name & -> & Hn)]; [eexists; reflexivity|].
      apply level_of_name_known in Hn. destruct Hn as [l Hl]. eauto. }
    destruct Hl as [l Hl].
    destruct (environ w !! lit "LOG_LEVEL") as [name|]; rewrite Hl;
      apply response_depends_on; reflexivity.
  - intros name E Hn. rewrite E.
    assert (Hl : exists l, level_of_name name = Some l /\ INFO < l).
    { simpl in Hn.
      repeat (destruct Hn as [<-|Hn]; [eexists; split; [reflexivity|reflexivity]|]).
      destruct Hn. }
    destruct Hl as (l & -> & Hlt).
    rewrite lambda_handler_quiet; [reflexivity|exact Hlt].
Qed.

Lemma X6_cold_start_witness :
  cold_start (PDict example_event) None
    (with_environ {[ lit "LOG_LEVEL" := lit "verbose" ]} example_world)
  = (Raises ValueError, with_environ {[ lit "LOG_LEVEL" := lit "verbose" ]} example_world).
Proof.
  apply (X6_cold_start (PDict example_event) None
           (with_environ {[ lit "LOG_LEVEL" := lit "verbose" ]} example_world))
    with (name := lit "verbose").
  - reflexivity.
  - intros H. vm_compute in H. repeat (destruct H as [H|H]; [discriminate H|]). exact H.
Defined.

(** ** Calls one after the other *)

(** X7: the handler keeps nothing from one call to the next. The outcome
    of a call made after another one is the outcome it would have without
    it: nothing is deduplicated and no rate is limited, the same event sent
    twice is answered twice. *)
Theorem X7_calls_independent (e1 e2 : pyval) (c1 c2 : option LambdaContext)
    (bs : list N) (t : datetime) (w : world) :
  fst (lambda_handler e2 c2 (with_call bs t (snd (lambda_handler e1 c1 w))))
  = fst (lambda_handler e2 c2 (with_call bs t w)).
Proof.
  apply response_depends_on; try reflexivity.
  - cbn [with_call environ].
    destruct (lambda_handler_frame e1 c1 w) as (He & _).
    cbv zeta in He. rewrite He. reflexivity.
  - intros s. unfold decoder_limit. cbn [with_call interp].
    rewrite lambda_handler_interp. reflexivity.
Qed.

(** ** Round trips of the bodies *)

Lemma success_body_decodes_gen (lid env ts env' ts' : pystr) :
  forallb plain lid = true ->
  (forall rest, scanstring (escape_str env ++ 34 :: rest) = Some (env', rest)) ->
  (forall rest, scanstring (escape_str ts ++ 34 :: rest) = Some (ts', rest)) ->
  json_loads (json_dumps (success_body lid (PStr env) ts))
  = Some (success_body lid (PStr env') ts').
Proof.
  intros Hlid Henv Hts.
  apply (json_loads_intro 20) with (r := []); [discriminate| |reflexivity].
  unfold success_body. normalise_dumps.
  rewrite (escape_str_plain lid Hlid).
  rewrite scan_once_object.
  erewrite parse_object_next; [|reflexivity|reflexivity|apply scan_once_true].
  erewrite parse_object_next;
    [|reflexivity|reflexivity|apply scan_once_string, scanstring_plain_str, Hlid].
  erewrite parse_object_next;
    [|reflexivity|reflexivity|apply scan_once_string; reflexivity].
  erewrite parse_object_last; [|reflexivity|reflexivity|].
  2:{ rewrite scan_once_object.
      erewrite parse_object_next;
        [|reflexivity|reflexivity|apply scan_once_string, Henv].
      erewrite parse_object_next;
        [|reflexivity|reflexivity|apply scan_once_string, Hts].
      erewrite parse_object_last;
        [reflexivity|reflexivity|reflexivity|apply scan_once_true]. }
  reflexivity.
Qed.

Lemma error_body_decodes_gen (code message code' message' : pystr) :
  (forall rest, scanstring (escape_str code ++ 34 :: rest) = Some (code', rest)) ->
  (forall rest, scanstring (escape_str message ++ 34 :: rest) = Some (message', rest)) ->
  json_loads (json_dumps (PDict [(lit "success", PBool false);
                                 (lit "error", PDict [(lit "code", PStr code);
                                                      (lit "message", PStr message)])]))
  = Some (PDict [(lit "success", PBool false);
                 (lit "error", PDict [(lit "code", PStr code');
                                      (lit "message", PStr message')])]).
Proof.
  intros Hcode Hmsg.
  apply (json_loads_intro 20) with (r := []); [discriminate| |reflexivity].
  normalise_dumps.
  rewrite scan_once_object.
  erewrite parse_object_next; [|reflexivity|reflexivity|apply scan_once_false].
  erewrite parse_object_last; [|reflexivity|reflexivity|].
  2:{ rewrite scan_once_object.
      erewrite parse_object_next;
        [|reflexivity|reflexivity|apply scan_once_string, Hcode].
      erewrite parse_object_last;
        [reflexivity|reflexivity|reflexivity|apply scan_once_string, Hmsg]. }
  reflexivity.
Qed.

Lemma scanstring_scalar_exact (s t : pystr) :
  (forall rest, scanstring (escape_str s ++ 34 :: rest) = Some (t, rest)) ->
  forallb scalar s = true -> t = s.
Proof.
  intros H Hs. specialize (H []).
  rewrite (scanstring_escape_scalar s [] Hs) in H. congruence.
Qed.

Lemma digits_of_uint_plain (d : Decimal.uint) : forallb plain (digits_of_uint d) = true.
Proof. induction d; simpl; try rewrite IHd; reflexivity. Qed.

Lemma N_repr_plain (n : N) : forallb plain (N_repr n) = true.
Proof. destruct n; [reflexivity|apply digits_of_uint_plain]. Qed.

Lemma zfill_plain (k : nat) (n : N) : forallb plain (zfill k n) = true.
Proof.
  unfold zfill, zeros. rewrite forallb_app, N_repr_plain, andb_true_r.
  induction (k - length (N_repr n))%nat as [|m IH]; [reflexivity|exact IH].
Qed.

Lemma timestamp_plain (w : world) : forallb plain (timestamp_of w) = true.
Proof.
  unfold timestamp_of, isoformat.
  repeat (rewrite forallb_app || rewrite zfill_plain || cbn [forallb andb]).
  change (plain 45) with true. change (plain 84) with true. change (plain 58) with true.
  cbn [andb].
  destruct (microsecond (utcnow w) =? 0); cbn [forallb]; [reflexivity|].
  rewrite zfill_plain. reflexivity.
Qed.



(** X9: [_error_response] without details, or with falsy ones such as an
    empty list, passes the status code through and writes a body that is
    valid JSON for every code and message: it decodes to
    [{success: false, error: {code, message}}] with no [details] key, and
    code and message come back unchanged when they are made of Unicode
    scalar values. The headers are the content type alone. *)
Theorem X9_error_response_round_trip (status_code : Z) (code message : pystr)
    (details : pyval) :
  truthy details = false ->
  exists code' message',
    field "statusCode" (_error_response status_code code message details) = PInt status_code
    /\ field "headers" (_error_response status_code code message details)
       = PDict [(lit "Content-Type", PStr (lit "application/json"))]
    /\ decoded_body (_error_response status_code code message details)
       = Some (PDict [(lit "success", PBool false);
                      (lit "error", PDict [(lit "code", PStr code');
                                           (lit "message", PStr message')])])
    /\ (forallb scalar code = true -> code' = code)
    /\ (forallb scalar message = true -> message' = message).
Proof.
  intros Hd.
  destruct (scanstring_escape_str code) as [code' Hcode].
  destruct (scanstring_escape_str message) as [message' Hmsg].
  exists code', message'.
  unfold _error_response. rewrite Hd.
  split; [reflexivity|]. split; [reflexivity|]. split.
  - erewrite decoded_body_eq by reflexivity.
    apply error_body_decodes_gen; assumption.
  - split; apply scanstring_scalar_exact; assumption.
Qed.

Lemma X9_error_response_round_trip_witness :
  exists code' message',
    field "statusCode" (_error_response 500 (lit "INTERNAL") [233; 128512] (PList []))
    = PInt 500
    /\ field "headers" (_error_response 500 (lit "INTERNAL") [233; 128512] (PList []))
       = PDict [(lit "Content-Type", PStr (lit "application/json"))]
    /\ decoded_body (_error_response 500 (lit "INTERNAL") [233; 128512] (PList []))
       = Some (PDict [(lit "success", PBool false);
                      (lit "error", PDict [(lit "code", PStr code');
                                           (lit "message", PStr message')])])
    /\ (forallb scalar (lit "INTERNAL") = true -> code' = lit "INTERNAL")
    /\ (forallb scalar [233; 128512] = true -> message' = [233; 128512]).
Proof.
  apply (X9_error_response_round_trip 500 (lit "INTERNAL") [233; 128512] (PList [])).
  reflexivity.
Defined.

(** ** Integers are read back *)

Lemma digits_value_acc (d : Decimal.uint) (acc : positive) :
  fold_left (fun a c => a * 10 + (c - 48)) (digits_of_uint d) (Npos acc)
  = Npos (Pos.of_uint_acc d acc).
Proof.
  revert acc. induction d; intros acc; simpl; try reflexivity;
    match goal with
    | |- fold_left _ _ ?x = _ =>
        match goal with
        | |- _ = Npos (Pos.of_uint_acc _ ?y) =>
            replace x with (Npos y) by lia
        end
    end; apply IHd.
Qed.

Lemma digits_value_of_uint (d : Decimal.uint) :
  digits_value (digits_of_uint d) = Pos.of_uint d.
Proof.
  unfold digits_value.
  induction d; simpl; try reflexivity; try exact IHd;
    match goal with
    | |- fold_left _ _ ?x = Npos (Pos.of_uint_acc _ ?y) =>
        change x with (Npos y)
    end; apply digits_value_acc.
Qed.

Lemma digits_value_N_repr (n : N) : digits_value (N_repr n) = n.
Proof.
  destruct n as [|p]; [reflexivity|].
  unfold N_repr. rewrite digits_value_of_uint. apply DecimalPos.Unsigned.of_to.
Qed.

Lemma digits_of_uint_digits (d : Decimal.uint) :
  forallb is_digit (digits_of_uint d) = true.
Proof. induction d; simpl; try rewrite IHd; reflexivity. Qed.

Lemma span_digits_app (ds rest : pystr) :
  forallb is_digit ds = true ->
  match rest with [] => true | c :: _ => negb (is_digit c) end = true ->
  span_digits (ds ++ rest) = (ds, rest).
Proof.
  intros Hds Hrest. induction ds as [|c ds IH]; simpl.
  - destruct rest as [|c r]; [reflexivity|].
    simpl. apply negb_true_iff in Hrest. rewrite Hrest. reflexivity.
  - simpl in Hds. apply andb_true_iff in Hds as [Hc Hds].
    rewrite Hc, (IH Hds). reflexivity.
Qed.

(** The digits of a positive number start with a digit other than zero. *)
Lemma to_uint_head (p : positive) :
  exists c ds, digits_of_uint (Pos.to_uint p) = c :: ds
               /\ (49 <=? c) && (c <=? 57) = true.
Proof.
  pose proof (DecimalPos.Unsigned.to_of (Pos.to_uint p)) as H.
  rewrite DecimalPos.Unsigned.of_to in H. simpl in H.
  pose proof (DecimalPos.Unsigned.to_uint_nonnil p) as Hnil.
  pose proof (DecimalPos.Unsigned.to_uint_nonzero p) as Hz.
  assert (Hnz : Pos.to_uint p = Decimal.nzhead (Pos.to_uint p)).
  { rewrite H at 1. unfold Decimal.unorm.
    destruct (Decimal.nzhead (Pos.to_uint p)) eqn:E; try reflexivity.
    exfalso. apply Hz. rewrite H. unfold Decimal.unorm. rewrite E. reflexivity. }
  destruct (Pos.to_uint p) as [|d|d|d|d|d|d|d|d|d|d] eqn:E;
    try (do 2 eexists; split; reflexivity).
  - contradiction.
  - exfalso. symmetry in Hnz. exact (DecimalFacts.nzhead_nonzero _ _ Hnz).
Qed.

Lemma match_number_digits (neg : bool) (c : N) (ds rest : pystr) :
  (49 <=? c) && (c <=? 57) = true ->
  forallb is_digit ds = true ->
  delim_ok rest ->
  match_number ((if neg then [45] else []) ++ c :: ds ++ rest)
  = Some (PInt (if neg then - Z.of_N (digits_value (c :: ds))
                else Z.of_N (digits_value (c :: ds)))%Z, rest).
Proof.
  intros Hc Hds Hrest.
  assert (Hc45 : (c =? 45) = false).
  { apply andb_true_iff in Hc as [Hc _]. apply N.leb_le in Hc.
    apply N.eqb_neq. lia. }
  assert (Hspan : span_digits (ds ++ rest) = (ds, rest)).
  { apply span_digits_app; [exact Hds|].
    destruct Hrest as [->|(c0 & r & -> & [->|[->| ->]])]; reflexivity. }
  assert (Htail : forall ids,
    (let '(fds, r2) :=
       match rest with
       | d :: f :: r' =>
           if (d =? 46) && is_digit f
           then let '(ds0, r'') := span_digits r' in (f :: ds0, r'')
           else ([], rest)
       | _ => ([], rest)
       end in
     let '(ex, r3) :=
       match r2 with
       | e :: r' =>
           if (e =? 101) || (e =? 69) then
             let '(eneg, r'') :=
               match r' with
               | sg :: r''' =>
                   if sg =? 45 then (true, r''')
                   else if sg =? 43 then (false, r''')
                   else (false, r')
               | [] => (false, r')
               end in
             let '(eds, r4) := span_digits r'' in
             match eds with
             | [] => (None, r2)
             | _ => (Some (eneg, digits_value eds), r4)
             end
           else (None, r2)
       | [] => (None, r2)
       end in
     match fds, ex with
     | [], None =>
         let n := Z.of_N (digits_value ids) in
         Some (PInt (if neg then - n else n)%Z, r3)
     | _, _ =>
         let e10 :=
           match ex with
           | Some (true, x) => (- Z.of_N x)%Z
           | Some (false, x) => Z.of_N x
           | None => 0%Z
           end in
         Some (PFloat (FFin neg (digits_value (ids ++ fds))
                            (e10 - Z.of_nat (length fds))), r3)
     end)
    = Some (PInt (if neg then - Z.of_N (digits_value ids)
                  else Z.of_N (digits_value ids))%Z, rest)).
  { intros ids.
    destruct Hrest as [->|(c0 & r & -> & [->|[->| ->]])]; [reflexivity| | |];
      destruct r; reflexivity. }
  unfold match_number. destruct neg; cbn [app].
  - change (45 =? 45) with true. cbv iota. rewrite Hc, Hspan. apply Htail.
  - rewrite Hc45, Hc, Hspan. apply Htail.
Qed.

Lemma match_number_int_repr (z : Z) (rest : pystr) :
  delim_ok rest -> match_number (int_repr z ++ rest) = Some (PInt z, rest).
Proof.
  intros Hrest. destruct z as [|p|p].
  - destruct Hrest as [->|(c0 & r & -> & [->|[->| ->]])]; [reflexivity| | |];
      destruct r; reflexivity.
  - destruct (to_uint_head p) as (c & ds & E & Hc).
    pose proof (digits_of_uint_digits (Pos.to_uint p)) as Hd.
    pose proof (digits_value_N_repr (Npos p)) as Hv.
    unfold int_repr, N_repr in *. cbn [Z.to_N] in *. rewrite E in *.
    simpl in Hd. apply andb_true_iff in Hd as [_ Hd].
    pose proof (match_number_digits false c ds rest Hc Hd Hrest) as Hm.
    cbn [app] in Hm |- *. rewrite Hm, Hv. reflexivity.
  - destruct (to_uint_head p) as (c & ds & E & Hc).
    pose proof (digits_of_uint_digits (Pos.to_uint p)) as Hd.
    pose proof (digits_value_N_repr (Npos p)) as Hv.
    unfold int_repr, N_repr in *. rewrite E in *.
    simpl in Hd. apply andb_true_iff in Hd as [_ Hd].
    pose proof (match_number_digits true c ds rest Hc Hd Hrest) as Hm.
    cbn [app] in Hm |- *. rewrite Hm, Hv. reflexivity.
Qed.

(** ** Every value without floats is read back *)

Lemma pyval_induction (P : pyval -> Prop) :
  P PNone ->
  (forall b, P (PBool b)) ->
  (forall z, P (PInt z)) ->
  (forall f, P (PFloat f)) ->
  (forall s, P (PStr s)) ->
  (forall l, Forall P l -> P (PList l)) ->
  (forall d, Forall (fun kv => P (snd kv)) d -> P (PDict d)) ->
  forall v, P v.
Proof.
  intros HN HB HI HF HS HL HD.
  fix IH 1. intros [ |b|z|f|s|l|d].
  - exact HN.
  - apply HB.
  - apply HI.
  - apply HF.
  - apply HS.
  - apply HL.
    exact ((fix go (l : list pyval) : Forall P l :=
              match l with
              | [] => @List.Forall_nil _ P
              | x :: l' => @List.Forall_cons _ P x l' (IH x) (go l')
              end) l).
  - apply HD.
    exact ((fix go (d : list (pystr * pyval)) : Forall (fun kv => P (snd kv)) d :=
              match d with
              | [] => @List.Forall_nil _ _
              | kv :: d' => @List.Forall_cons _ (fun kv => P (snd kv)) kv d' (IH (snd kv)) (go d')
              end) d).
Qed.

Lemma delim_ok_comma (r : pystr) : delim_ok (44 :: r).
Proof. right. exists 44, r. auto. Qed.

Lemma delim_ok_bracket (r : pystr) : delim_ok (93 :: r).
Proof. right. exists 93, r. auto. Qed.

Lemma delim_ok_brace (r : pystr) : delim_ok (125 :: r).
Proof. right. exists 125, r. auto. Qed.

Lemma int_repr_head (z : Z) :
  exists c r, int_repr z = c :: r
              /\ (is_digit c = true
                  \/ (c = 45 /\ exists c' r', r = c' :: r' /\ is_digit c' = true)).
Proof.
  destruct z as [|p|p].
  - exists 48, []. split; [reflexivity|left; reflexivity].
  - destruct (to_uint_head p) as (c & ds & E & Hc).
    exists c, ds. split; [exact E|left].
    unfold is_digit. apply andb_true_iff in Hc as [H1 H2].
    apply N.leb_le in H1. rewrite H2, andb_true_r. apply N.leb_le. lia.
  - destruct (to_uint_head p) as (c & ds & E & Hc).
    exists 45, (c :: ds). split; [unfold int_repr, N_repr; rewrite E; reflexivity|].
    right. split; [reflexivity|]. exists c, ds. split; [reflexivity|].
    unfold is_digit. apply andb_true_iff in Hc as [H1 H2].
    apply N.leb_le in H1. rewrite H2, andb_true_r. apply N.leb_le. lia.
Qed.

Lemma is_digit_range (c : N) : is_digit c = true -> 48 <= c <= 57.
Proof.
  unfold is_digit. intros H. apply andb_true_iff in H as [H1 H2].
  apply N.leb_le in H1, H2. lia.
Qed.

Lemma json_dumps_head (v : pyval) (rest : pystr) :
  json_safe v = true -> good_head (json_dumps v ++ rest).
Proof.
  intros Hs. unfold good_head.
  destruct v as [ |b|z|f|s|l|d]; try discriminate Hs.
  - do 2 eexists. split; [reflexivity|]. repeat split; try discriminate.
    right; right. simpl. tauto.
  - destruct b; (do 2 eexists; split; [reflexivity|]; repeat split; try discriminate;
                 right; right; simpl; tauto).
  - cbn [json_dumps].
    destruct (int_repr_head z) as (c & r & -> & [Hd|(-> & c' & r' & -> & Hd)]).
    + exists c, (r ++ rest). split; [reflexivity|].
      pose proof (is_digit_range c Hd) as Hr.
      repeat split; try (intros ->; discriminate Hd); [|left; exact Hd].
      unfold is_ws.
      repeat match goal with
             | |- context [c =? ?k] =>
                 replace (c =? k) with false by (symmetry; apply N.eqb_neq; lia)
             end. reflexivity.
    + exists 45, ((c' :: r') ++ rest). split; [reflexivity|].
      repeat split; try discriminate. right; left. split; [reflexivity|].
      exists c', (r' ++ rest). split; [reflexivity|exact Hd].
  - do 2 eexists. split; [reflexivity|]. repeat split; try discriminate.
    right; right. simpl. tauto.
  - do 2 eexists. split; [reflexivity|]. repeat split; try discriminate.
    right; right. simpl. tauto.
  - do 2 eexists. split; [reflexivity|]. repeat split; try discriminate.
    right; right. simpl. tauto.
Qed.

Lemma good_head_skip_ws (s : pystr) : good_head s -> skip_ws s = s.
Proof.
  intros (c & r & -> & Hws & _). simpl. rewrite Hws. reflexivity.
Qed.

Lemma scan_once_number (f : nat) (s : pystr) :
  (exists c r, s = c :: r
               /\ (is_digit c = true
                   \/ (c = 45 /\ exists c' r', r = c' :: r' /\ is_digit c' = true))) ->
  scan_once (S f) s = of_option (match_number s).
Proof.
  intros (c & r & -> & [Hd|(-> & c' & r' & -> & Hd)]).
  - pose proof (is_digit_range c Hd) as Hr. cbn [scan_once].
    repeat match goal with
           | |- context [c =? ?k] =>
               replace (c =? k) with false by (symmetry; apply N.eqb_neq; lia)
           end.
    reflexivity.
  - pose proof (is_digit_range c' Hd) as Hr. cbn [scan_once].
    change (45 =? 34) with false. change (45 =? 123) with false.
    change (45 =? 91) with false. change (45 =? 110) with false.
    change (45 =? 116) with false. change (45 =? 102) with false.
    change (45 =? 78) with false. change (45 =? 73) with false.
    change (45 =? 45) with true. cbv iota.
    assert (E : constant "-Infinity" (PFloat (FInf true)) (45 :: c' :: r') = None).
    { unfold constant.
      change (eat (lit "-Infinity") (45 :: c' :: r'))
        with (if 73 =? c' then eat (lit "nfinity") r' else None).
      replace (73 =? c') with false by (symmetry; apply N.eqb_neq; lia).
      reflexivity. }
    rewrite E. reflexivity.
Qed.

Lemma scan_once_int (f : nat) (z : Z) (rest : pystr) :
  delim_ok rest -> scan_once (S f) (int_repr z ++ rest) = Ok (PInt z) rest.
Proof.
  intros Hrest. rewrite scan_once_number.
  - rewrite (match_number_int_repr z rest Hrest). reflexivity.
  - destruct (int_repr_head z) as (c & r & -> & H).
    exists c, (r ++ rest). split; [reflexivity|].
    destruct H as [H|(-> & c' & r' & -> & H)]; [left; exact H|].
    right. split; [reflexivity|]. exists c', (r' ++ rest). split; [reflexivity|exact H].
Qed.

Lemma scan_once_encoded (f : nat) (s rest : pystr) :
  forallb scalar s = true ->
  scan_once (S f) (encode_basestring_ascii s ++ rest) = Ok (PStr s) rest.
Proof.
  intros Hs. unfold encode_basestring_ascii.
  rewrite <- app_comm_cons, <- app_assoc. cbn [app].
  apply scan_once_string, scanstring_escape_scalar, Hs.
Qed.

Lemma join_cons2 (sep p q : pystr) (ps : list pystr) :
  join sep (p :: q :: ps) = p ++ sep ++ join sep (q :: ps).
Proof. reflexivity. Qed.

Lemma good_head_app (s rest : pystr) : good_head s -> good_head (s ++ rest).
Proof.
  intros (c & r & -> & H1 & H2 & H3 & H4).
  exists c, (r ++ rest). split; [reflexivity|]. repeat split; try assumption.
  destruct H4 as [H4|[(-> & c' & r' & -> & H4)|H4]]; auto.
  right; left. split; [reflexivity|]. exists c', (r' ++ rest). auto.
Qed.

Lemma join_dumps_head (l : list pyval) (rest : pystr) :
  l <> [] -> forallb json_safe l = true ->
  good_head (join (lit ", ") (map json_dumps l) ++ rest).
Proof.
  intros Hne Hs. destruct l as [|e l]; [contradiction|].
  simpl in Hs. apply andb_true_iff in Hs as [He _].
  destruct l as [|e2 l].
  - apply json_dumps_head. exact He.
  - cbn [map]. rewrite join_cons2, <- app_assoc. apply json_dumps_head. exact He.
Qed.

Lemma parse_array_join (l : list pyval) :
  l <> [] ->
  Forall (fun v => json_safe v = true -> dumps_parses v) l ->
  forallb json_safe l = true ->
  forall acc f rest,
    (list_sum (map (fun x => S (size x)) l) <= f)%nat ->
    parse_array f (join (lit ", ") (map json_dumps l) ++ 93 :: rest) acc
    = Ok (PList (acc ++ l)) rest.
Proof.
  induction l as [|e l IH]; [contradiction|].
  intros _ HP Hs acc f rest Hf.
  inversion HP as [|? ? He HPl]; subst.
  simpl in Hs. apply andb_true_iff in Hs as [Hse Hsl].
  simpl in Hf.
  destruct f as [|f]; [lia|].
  destruct l as [|e2 l].
  - cbn [map join]. cbn [parse_array].
    rewrite (He Hse f (93 :: rest)) by (try apply delim_ok_bracket; simpl in *; lia).
    reflexivity.
  - cbn [map]. rewrite join_cons2, <- !app_assoc. cbn [parse_array].
    change (lit ", " ++ ?x) with (44 :: 32 :: x).
    rewrite (He Hse f) by (try apply delim_ok_comma; simpl in *; lia).
    cbv zeta.
    change (skip_ws (44 :: 32 :: ?x)) with (44 :: 32 :: x).
    change (44 =? 93) with false. change (44 =? 44) with true. cbv iota.
    change (skip_ws (32 :: ?x)) with (skip_ws x).
    rewrite good_head_skip_ws
      by (apply (join_dumps_head (e2 :: l)); [discriminate|exact Hsl]).
    assert (Hfuel : (list_sum (map (fun x => S (size x)) (e2 :: l)) <= f)%nat)
      by (simpl in *; lia).
    pose proof (IH ltac:(discriminate) HPl Hsl (acc ++ [e]) f rest Hfuel) as Hrec.
    cbn [map] in Hrec. rewrite Hrec.
    rewrite <- app_assoc. reflexivity.
Qed.

Lemma dict_set_fresh (k : pystr) (v : pyval) (acc : dict) :
  ~ In k (map fst acc) -> dict_set k v acc = acc ++ [(k, v)].
Proof.
  induction acc as [|[k' v'] acc IH]; intros H; [reflexivity|].
  simpl in *. rewrite bool_decide_eq_false_2 by tauto.
  rewrite IH by tauto. reflexivity.
Qed.

Lemma member_text_eq (k : pystr) (v : pyval) (rest : pystr) :
  member_text (k, v) ++ rest
  = 34 :: escape_str k ++ 34 :: 58 :: 32 :: json_dumps v ++ rest.
Proof.
  unfold member_text, encode_basestring_ascii. cbn [fst snd].
  rewrite <- !app_assoc, <- app_comm_cons, <- !app_assoc. reflexivity.
Qed.

Lemma join_members_head (d : dict) (rest : pystr) :
  d <> [] -> good_head (join (lit ", ") (map member_text d) ++ rest).
Proof.
  intros Hne. destruct d as [|[k v] d]; [contradiction|].
  assert (H : forall x, good_head (member_text (k, v) ++ x)).
  { intros x. rewrite member_text_eq. do 2 eexists. split; [reflexivity|].
    repeat split; try discriminate. right; right. simpl. tauto. }
  destruct d as [|kv2 d].
  - apply H.
  - cbn [map]. rewrite join_cons2, <- app_assoc. apply H.
Qed.

Lemma parse_object_join (d : dict) :
  d <> [] ->
  Forall (fun kv => json_safe (snd kv) = true -> dumps_parses (snd kv)) d ->
  forallb (fun kv => forallb scalar (fst kv) && json_safe (snd kv)) d = true ->
  forall acc f rest,
    NoDup (map fst (acc ++ d)) ->
    (list_sum (map (fun kv => S (size (snd kv))) d) <= f)%nat ->
    parse_object f (join (lit ", ") (map member_text d) ++ 125 :: rest) acc
    = Ok (PDict (acc ++ d)) rest.
Proof.
  induction d as [|[k v] d IH]; [contradiction|].
  intros _ HP Hs acc f rest Hnd Hf.
  inversion HP as [|? ? He HPd]; subst. cbn [snd] in He.
  simpl in Hs. apply andb_true_iff in Hs as [Hkv Hsd].
  apply andb_true_iff in Hkv as [Hk Hv].
  simpl in Hf. destruct f as [|f]; [lia|].
  assert (Hfresh : dict_set k v acc = acc ++ [(k, v)]).
  { apply dict_set_fresh. rewrite map_app in Hnd. simpl in Hnd.
    apply NoDup_app in Hnd as (_ & Hdisj & _).
    intros Hin. apply (Hdisj k); [apply list_elem_of_In; exact Hin|].
    left. }
  destruct d as [|kv2 d].
  - cbn [map join]. rewrite member_text_eq. cbn [parse_object].
    change (34 =? 34) with true. cbv iota.
    rewrite (scanstring_escape_scalar k _ Hk).
    change (skip_ws (58 :: ?x)) with (58 :: x).
    change (58 =? 58) with true. cbv iota.
    change (skip_ws (32 :: ?x)) with (skip_ws x).
    rewrite good_head_skip_ws by (apply json_dumps_head; exact Hv).
    rewrite (He Hv f (125 :: rest)) by (try apply delim_ok_brace; lia).
    cbv zeta. rewrite Hfresh. reflexivity.
  - cbn [map]. rewrite join_cons2, <- !app_assoc, member_text_eq.
    cbn [parse_object].
    change (34 =? 34) with true. cbv iota.
    rewrite (scanstring_escape_scalar k _ Hk).
    change (skip_ws (58 :: ?x)) with (58 :: x).
    change (58 =? 58) with true. cbv iota.
    change (skip_ws (32 :: ?x)) with (skip_ws x).
    rewrite good_head_skip_ws by (apply json_dumps_head; exact Hv).
    change (lit ", " ++ ?x) with (44 :: 32 :: x).
    rewrite (He Hv f) by (try apply delim_ok_comma; lia).
    cbv zeta.
    change (skip_ws (44 :: 32 :: ?x)) with (44 :: 32 :: x).
    change (44 =? 125) with false. change (44 =? 44) with true. cbv iota.
    change (skip_ws (32 :: ?x)) with (skip_ws x).
    rewrite good_head_skip_ws
      by (apply (join_members_head (kv2 :: d)); discriminate).
    rewrite Hfresh.
    assert (Hnd' : NoDup (map fst ((acc ++ [(k, v)]) ++ kv2 :: d)))
      by (rewrite <- app_assoc; exact Hnd).
    assert (Hfuel : (list_sum (map (fun kv => S (size (snd kv))) (kv2 :: d)) <= f)%nat)
      by (simpl in *; lia).
    pose proof (IH ltac:(discriminate) HPd Hsd (acc ++ [(k, v)]) f rest Hnd' Hfuel)
      as Hrec.
    cbn [map] in Hrec. rewrite Hrec.
    rewrite <- app_assoc. reflexivity.
Qed.

Lemma scan_array_nonempty (f : nat) (txt : pystr) :
  good_head txt -> scan_once (S f) (91 :: txt) = parse_array f txt [].
Proof.
  intros Hh. cbn [scan_once].
  change (91 =? 34) with false. change (91 =? 123) with false.
  change (91 =? 91) with true. cbv iota.
  rewrite (good_head_skip_ws _ Hh).
  destruct Hh as (c & r & -> & _ & Hc & _).
  replace (c =? 93) with false by (symmetry; apply N.eqb_neq; exact Hc).
  reflexivity.
Qed.

Lemma scan_object_nonempty (f : nat) (r : pystr) :
  scan_once (S f) (123 :: 34 :: r) = parse_object f (34 :: r) [].
Proof. reflexivity. Qed.

Lemma join_members_quote (d : dict) (rest : pystr) :
  d <> [] ->
  exists r, join (lit ", ") (map member_text d) ++ rest = 34 :: r.
Proof.
  intros Hne. destruct d as [|[k v] d]; [contradiction|].
  destruct d as [|kv2 d].
  - cbn [map join]. rewrite member_text_eq. eauto.
  - cbn [map]. rewrite join_cons2, <- !app_assoc, member_text_eq. eauto.
Qed.

(** The text [json.dumps] writes for a value without floats is read back
    by [scan_once] as that value. *)
Lemma scan_once_json_dumps (v : pyval) : json_safe v = true -> dumps_parses v.
Proof.
  induction v as [ |b|z|fl|s|l IHl|d IHd] using pyval_induction;
    intros Hs f rest Hf Hrest; simpl in Hf;
    (destruct f as [|f]; [lia|]).
  - reflexivity.
  - destruct b; reflexivity.
  - apply scan_once_int. exact Hrest.
  - discriminate Hs.
  - apply scan_once_encoded. exact Hs.
  - cbn [json_safe] in Hs. cbn [json_dumps].
    destruct l as [|e l]; [reflexivity|].
    rewrite <- app_comm_cons, <- app_assoc.
    change ([93] ++ rest) with (93 :: rest).
    etransitivity.
    { apply scan_array_nonempty.
      apply (join_dumps_head (e :: l)); [discriminate|exact Hs]. }
    apply (parse_array_join (e :: l) ltac:(discriminate) IHl Hs [] f rest). lia.
  - cbn [json_safe] in Hs. apply andb_true_iff in Hs as [Hs Hnd].
    apply bool_decide_eq_true in Hnd. cbn [json_dumps].
    destruct d as [|kv d]; [reflexivity|].
    rewrite <- app_comm_cons, <- app_assoc.
    change ([125] ++ rest) with (125 :: rest).
    change (fun kv : pystr * pyval =>
              encode_basestring_ascii (fst kv) ++ lit ": " ++ json_dumps (snd kv))
      with member_text.
    destruct (join_members_quote (kv :: d) (125 :: rest) ltac:(discriminate))
      as [r E].
    etransitivity.
    { etransitivity; [|apply (scan_object_nonempty f r)].
      f_equal. f_equal. exact E. }
    etransitivity; [|apply (parse_object_join (kv :: d) ltac:(discriminate) IHd Hs [] f rest Hnd); lia].
    f_equal. symmetry. exact E.
Qed.

(** The round trip of [json.dumps] and [json.loads]. *)
Lemma json_loads_dumps (v : pyval) :
  json_safe v = true -> json_loads (json_dumps v) = Some v.
Proof.
  intros Hs.
  pose proof (json_dumps_head v [] Hs) as Hh. rewrite app_nil_r in Hh.
  apply (json_loads_intro (size v) _ v []).
  - destruct Hh as (c & r & -> & _ & _ & Hbom & _). exact Hbom.
  - rewrite (good_head_skip_ws _ Hh).
    pose proof (scan_once_json_dumps v Hs (size v) [] ltac:(lia) ltac:(left; reflexivity))
      as H.
    rewrite app_nil_r in H. exact H.
  - reflexivity.
Qed.

(** X10: the round trip of the encoder and the decoder the handler calls.
    For every value without floats whose strings and keys are made of
    Unicode scalar values and whose dicts have no key twice,
    [json.loads(json.dumps(v))] is [v]. *)
Theorem X10_json_round_trip (v : pyval) :
  json_safe v = true -> json_loads (json_dumps v) = Some v.
Proof. apply json_loads_dumps. Qed.

Lemma X10_json_round_trip_witness :
  json_loads (json_dumps (PDict [(lit "name", PStr [65; 233; 128512; 34; 92; 10]);
                                 (lit "tags", PList [PInt (-12); PNone; PBool false;
                                                     PList []; PDict []])]))
  = Some (PDict [(lit "name", PStr [65; 233; 128512; 34; 92; 10]);
                 (lit "tags", PList [PInt (-12); PNone; PBool false;
                                     PList []; PDict []])]).
Proof.
  apply (X10_json_round_trip
           (PDict [(lit "name", PStr [65; 233; 128512; 34; 92; 10]);
                   (lit "tags", PList [PInt (-12); PNone; PBool false;
                                       PList []; PDict []])])).
  vm_compute. reflexivity.
Defined.



(** X12: the record the handler logs first can be read by a machine: with
    the logger at [INFO] or below, the log grows by a record
    ["Received event: "] followed by a text that the grammar of
    [json.loads] reads back as the event itself, for every event without
    floats, with strings and keys of Unicode scalar values and no key
    twice, also one the handler goes on to refuse. *)
Theorem X12_logged_event_parses (event : pyval) (context : option LambdaContext)
    (w : world) :
  json_safe event = true ->
  logger_level w <= INFO ->
  exists t more,
    log (snd (lambda_handler event context w))
    = log w ++ (INFO, lit "Received event: " ++ t) :: more
    /\ json_loads t = Some event.
Proof.
  intros Hs Hlv. apply N.leb_le in Hlv.
  exists (json_dumps event).
  assert (H1 : log (logged (received_msg event) w)
               = log w ++ [(INFO, lit "Received event: " ++ json_dumps event)]).
  { rewrite logged_log, Hlv. reflexivity. }
  destruct event as [| | | | | |d];
    try (exists []; split; [|apply json_loads_dumps; exact Hs];
         rewrite lambda_handler_not_dict by discriminate; exact H1).
  rewrite lambda_handler_run.
  destruct (body_limit d w);
    [exists []; split; [exact H1|apply json_loads_dumps; exact Hs]|].
  destruct (body_rejected d); cbn [snd].
  - exists []. split; [exact H1|apply json_loads_dumps; exact Hs].
  - eexists. split; [|apply json_loads_dumps; exact Hs].
    rewrite logged_log, H1, <- app_assoc. reflexivity.
Qed.

Lemma X12_logged_event_parses_witness :
  exists t more,
    log (snd (lambda_handler (PDict broken_event) None example_world))
    = log example_world ++ (INFO, lit "Received event: " ++ t) :: more
    /\ json_loads t = Some (PDict broken_event).
Proof.
  apply (X12_logged_event_parses (PDict broken_event) None example_world).
  - vm_compute. reflexivity.
  - vm_compute. discriminate.
Defined.

(** X13: details given to [_error_response] are written under
    [error.details], after [code] and [message], and come back as they
    were: for truthy details without floats, with strings and keys of
    Unicode scalar values and no key twice, and a code and a message of
    Unicode scalar values, the grammar of [json.loads] reads the body back
    as the dict that was built. *)
Theorem X13_error_details_round_trip (status_code : Z) (code message : pystr)
    (details : pyval) :
  truthy details = true ->
  json_safe details = true ->
  forallb scalar code = true ->
  forallb scalar message = true ->
  decoded_body (_error_response status_code code message details)
  = Some (PDict [(lit "success", PBool false);
                 (lit "error", PDict [(lit "code", PStr code);
                                      (lit "message", PStr message);
                                      (lit "details", details)])]).
Proof.
  intros Ht Hs Hc Hm. unfold _error_response. rewrite Ht.
  erewrite decoded_body_eq by reflexivity.
  change (dict_set (lit "details") details
            [(lit "code", PStr code); (lit "message", PStr message)])
    with [(lit "code", PStr code); (lit "message", PStr message);
          (lit "details", details)].
  apply json_loads_dumps.
  cbn [json_safe forallb fst snd]. rewrite Hs, Hc, Hm.
  vm_compute. reflexivity.
Qed.

Lemma X13_error_details_round_trip_witness :
  decoded_body
    (_error_response 400 (lit "VALIDATION_ERROR") (lit "Human readable message")
       (PList [PDict [(lit "field", PStr (lit "email"));
                      (lit "message", PStr (lit "Invalid email format"))]]))
  = Some (PDict [(lit "success", PBool false);
                 (lit "error",
                  PDict [(lit "code", PStr (lit "VALIDATION_ERROR"));
                         (lit "message", PStr (lit "Human readable message"));
                         (lit "details",
                          PList [PDict [(lit "field", PStr (lit "email"));
                                        (lit "message",
                                         PStr (lit "Invalid email format"))]])])]).
Proof.
  apply (X13_error_details_round_trip 400 (lit "VALIDATION_ERROR")
           (lit "Human readable message")
           (PList [PDict [(lit "field", PStr (lit "email"));
                          (lit "message", PStr (lit "Invalid email format"))]]));
    vm_compute; reflexivity.
Defined.

(** ** The generated identifier and the timestamp *)

Lemma lower_hex_digit (x : N) : lower_hex (hex_digit (N.land x 15)) = true.
Proof.
  assert (H : N.land x 15 < 16).
  { change 15 with (N.ones 4). rewrite N.land_ones. apply N.mod_lt. discriminate. }
  pose (P := fun d => lower_hex (hex_digit d)).
  assert (HP : all_from P 0 16 = true) by (vm_compute; reflexivity).
  apply (all_from_spec P _ 0 HP); lia.
Qed.

Lemma land_ldiff_swap (a b c : N) : N.land (N.ldiff a b) c = N.land a (N.ldiff c b).
Proof.
  apply N.bits_inj. intros n.
  rewrite !N.land_spec, !N.ldiff_spec.
  destruct (N.testbit a n), (N.testbit b n), (N.testbit c n); reflexivity.
Qed.

(** The version nibble of a generated UUID is 4. *)
Lemma uuid4_version (bs : list N) :
  hex_digit (N.land (N.shiftr (uuid4 bs) 76) 15) = 52.
Proof.
  unfold uuid4. cbv zeta.
  rewrite N.shiftr_lor, N.land_lor_distr_l, N.shiftr_ldiff, land_ldiff_swap.
  change (N.shiftr (N.shiftl 61440 64) 76) with 15.
  change (N.ldiff 15 15) with 0. rewrite N.land_0_r.
  reflexivity.
Qed.

(** The two high bits of the variant nibble are [10]. *)
Lemma uuid4_variant (bs : list N) :
  existsb (N.eqb (hex_digit (N.land (N.shiftr (uuid4 bs) 60) 15))) [56; 57; 97; 98] = true.
Proof.
  unfold uuid4. cbv zeta. generalize (int_from_bytes bs) as i. intros i.
  rewrite N.shiftr_lor, N.land_lor_distr_l, N.shiftr_ldiff, land_ldiff_swap.
  rewrite N.shiftr_lor, N.land_lor_distr_l, N.shiftr_ldiff, land_ldiff_swap.
  change (N.land (N.shiftr (N.shiftl 4 76) 60) 15) with 0. rewrite N.lor_0_r.
  change (N.ldiff (N.ldiff 15 (N.shiftr (N.shiftl 61440 64) 60))
            (N.shiftr (N.shiftl 49152 48) 60)) with 3.
  change (N.land (N.shiftr (N.shiftl 32768 48) 60)
            (N.ldiff 15 (N.shiftr (N.shiftl 61440 64) 60))) with 8.
  assert (H : N.land (N.shiftr i 60) 3 < 4).
  { change 3 with (N.ones 2). rewrite N.land_ones. apply N.mod_lt. discriminate. }
  pose (P := fun d => existsb (N.eqb (hex_digit (N.lor d 8))) [56; 57; 97; 98]).
  assert (HP : all_from P 0 4 = true) by (vm_compute; reflexivity).
  apply (all_from_spec P _ 0 HP); lia.
Qed.

Lemma uuid_str_uuid4 (bs : list N) : is_uuid4_text (uuid_str (uuid4 bs)) = true.
Proof.
  pose proof (uuid4_version bs) as Hv. pose proof (uuid4_variant bs) as Hr.
  revert Hv Hr. generalize (uuid4 bs) as u. intros u Hv Hr.
  unfold is_uuid4_text, uuid_str, hex_fixed.
  cbn [seq rev app map take drop forallb length nth Nat.eqb].
  rewrite !lower_hex_digit.
  change (4 * N.of_nat 19) with 76. change (4 * N.of_nat 15) with 60.
  rewrite Hv, Hr. reflexivity.
Qed.

Lemma success_response_decodes_exact (context : option LambdaContext) (w : world) :
  exists env',
    decoded_body (success_response context w)
    = Some (success_body (lead_id_of w) (PStr env') (timestamp_of w)).
Proof.
  destruct (scanstring_escape_str (default (lit "dev") (environ w !! lit "ENVIRONMENT")))
    as [env' Henv].
  destruct (scanstring_escape_str (timestamp_of w)) as [ts' Hts].
  pose proof (scanstring_plain_exact _ _ Hts (timestamp_plain w)) as ->.
  exists env'.
  rewrite (decoded_body_eq _ _ (success_response_body context w)).
  rewrite environment_of_str.
  apply (success_body_decodes_gen _ _ _ _ _ (uuid_str_plain _) Henv Hts).
Qed.

(** X14: the identifier the handler hands out is the canonical text of a
    version 4 UUID: 36 characters, lower-case hex digits in groups of 8, 4,
    4, 4 and 12 joined by dashes, the version digit [4] and a variant digit
    among [8], [9], [a], [b], whatever [os.urandom] produced. *)
Theorem X14_lead_id_format (event : pyval) (context : option LambdaContext)
    (w : world) (r : pyval) (w' : world) :
  lambda_handler event context w = (Returns r, w') ->
  field "statusCode" r = PInt 200 ->
  exists o lead_id,
    decoded_body r = Some o
    /\ field "leadId" o = PStr lead_id
    /\ is_uuid4_text lead_id = true.
Proof.
  intros H Hst.
  apply lambda_handler_returns in H as (d & -> & Hlim & [[Hrej ->]|[Hacc ->]]);
    [discriminate Hst|].
  destruct (success_response_decodes_exact context w) as (env' & Hdec).
  do 2 eexists. split; [exact Hdec|]. split; [reflexivity|].
  apply uuid_str_uuid4.
Qed.

Lemma X14_lead_id_format_witness :
  exists o lead_id,
    decoded_body (success_response None example_world) = Some o
    /\ field "leadId" o = PStr lead_id
    /\ is_uuid4_text lead_id = true.
Proof.
  apply (X14_lead_id_format (PDict example_event) None example_world
           (success_response None example_world)
           (snd (lambda_handler (PDict example_event) None example_world))).
  - vm_compute. reflexivity.
  - reflexivity.
Defined.

Lemma fold_digits_lower (ds : pystr) :
  forall a, a * 10 ^ N.of_nat (length ds) <= fold_left (fun a d => a * 10 + (d - 48)) ds a.
Proof.
  induction ds as [|d ds IH]; intros a.
  - cbn [length fold_left]. change (10 ^ N.of_nat 0) with 1. lia.
  - cbn [length fold_left]. rewrite Nat2N.inj_succ, N.pow_succ_r'.
    etransitivity; [|apply IH]. nia.
Qed.

Lemma N_repr_length (k : nat) (n : N) :
  (0 < k)%nat -> n < 10 ^ N.of_nat k -> (length (N_repr n) <= k)%nat.
Proof.
  intros Hk Hn. destruct n as [|p]; [cbn [N_repr length]; lia|].
  pose proof (digits_value_N_repr (Npos p)) as Hv.
  unfold N_repr in *.
  destruct (to_uint_head p) as (c & ds & E & Hc). rewrite E in Hv |- *.
  apply andb_true_iff in Hc as [Hc1 Hc2]. apply N.leb_le in Hc1.
  unfold digits_value in Hv. cbn [fold_left] in Hv.
  pose proof (fold_digits_lower ds (0 * 10 + (c - 48))) as Hlow. rewrite Hv in Hlow.
  cbn [length].
  assert (H10 : 10 ^ N.of_nat (length ds) < 10 ^ N.of_nat k).
  { eapply N.le_lt_trans; [|exact Hn]. etransitivity; [|exact Hlow]. nia. }
  apply N.pow_lt_mono_r_iff in H10; lia.
Qed.

Lemma digits_value_zeros (m : nat) (ds : pystr) :
  digits_value (zeros m ++ ds) = digits_value ds.
Proof.
  unfold digits_value, zeros. rewrite fold_left_app. f_equal.
  induction m as [|m IH]; [reflexivity|exact IH].
Qed.

Lemma N_repr_digits (n : N) : forallb is_digit (N_repr n) = true.
Proof. destruct n; [reflexivity|apply digits_of_uint_digits]. Qed.

(** Below [10^k], [zfill k] writes exactly [k] digits. *)
Lemma zfill_digits_text (k : nat) (n : N) :
  (0 < k)%nat -> n < 10 ^ N.of_nat k -> digits_text k n (zfill k n).
Proof.
  intros Hk Hn. pose proof (N_repr_length k n Hk Hn) as Hlen.
  unfold digits_text, zfill. split; [|split].
  - unfold zeros. rewrite length_app, repeat_length. lia.
  - rewrite forallb_app, N_repr_digits, andb_true_r. unfold zeros.
    induction (k - length (N_repr n))%nat as [|m IH]; [reflexivity|exact IH].
  - rewrite digits_value_zeros. apply digits_value_N_repr.
Qed.

(** X15: the timestamp of a success response is
    [YYYY-MM-DDTHH:MM:SS] followed by [Z], every field zero-padded to its
    width, with a fraction of exactly six digits between the seconds and
    the [Z] when the microseconds of the clock are not zero and no fraction
    at all when they are: the text has 20 or 27 characters. *)
Theorem X15_timestamp_format (event : pyval) (context : option LambdaContext)
    (w : world) (r : pyval) (w' : world) :
  valid_datetime (utcnow w) ->
  lambda_handler event context w = (Returns r, w') ->
  field "statusCode" r = PInt 200 ->
  exists o ts Y Mo D h mi s frac,
    decoded_body r = Some o
    /\ field "timestamp" (field "_meta" o) = PStr ts
    /\ ts = Y ++ 45 :: Mo ++ 45 :: D ++ 84 :: h ++ 58 :: mi ++ 58 :: s ++ frac ++ [90]
    /\ digits_text 4 (year (utcnow w)) Y
    /\ digits_text 2 (month (utcnow w)) Mo
    /\ digits_text 2 (day (utcnow w)) D
    /\ digits_text 2 (hour (utcnow w)) h
    /\ digits_text 2 (minute (utcnow w)) mi
    /\ digits_text 2 (second (utcnow w)) s
    /\ (if microsecond (utcnow w) =? 0 then frac = []
        else exists us, frac = 46 :: us /\ digits_text 6 (microsecond (utcnow w)) us)
    /\ length ts = if microsecond (utcnow w) =? 0 then 20%nat else 27%nat.
Proof.
  intros (Hy & Hmo & Hd & Hh & Hmi & Hs & Hus) H Hst.
  apply lambda_handler_returns in H as (d & -> & Hlim & [[Hrej ->]|[Hacc ->]]);
    [discriminate Hst|].
  destruct (success_response_decodes_exact context w) as (env' & Hdec).
  assert (HY : digits_text 4 (year (utcnow w)) (zfill 4 (year (utcnow w))))
    by (apply zfill_digits_text; [lia|change (10 ^ N.of_nat 4) with 10000; lia]).
  assert (HMo : digits_text 2 (month (utcnow w)) (zfill 2 (month (utcnow w))))
    by (apply zfill_digits_text; [lia|change (10 ^ N.of_nat 2) with 100; lia]).
  assert (HD : digits_text 2 (day (utcnow w)) (zfill 2 (day (utcnow w))))
    by (apply zfill_digits_text; [lia|change (10 ^ N.of_nat 2) with 100; lia]).
  assert (Hh' : digits_text 2 (hour (utcnow w)) (zfill 2 (hour (utcnow w))))
    by (apply zfill_digits_text; [lia|change (10 ^ N.of_nat 2) with 100; lia]).
  assert (Hmi' : digits_text 2 (minute (utcnow w)) (zfill 2 (minute (utcnow w))))
    by (apply zfill_digits_text; [lia|change (10 ^ N.of_nat 2) with 100; lia]).
  assert (Hs' : digits_text 2 (second (utcnow w)) (zfill 2 (second (utcnow w))))
    by (apply zfill_digits_text; [lia|change (10 ^ N.of_nat 2) with 100; lia]).
  assert (Hus' : digits_text 6 (microsecond (utcnow w)) (zfill 6 (microsecond (utcnow w))))
    by (apply zfill_digits_text; [lia|change (10 ^ N.of_nat 6) with 1000000; lia]).
  exists (success_body (lead_id_of w) (PStr env') (timestamp_of w)), (timestamp_of w).
  exists (zfill 4 (year (utcnow w))), (zfill 2 (month (utcnow w))),
    (zfill 2 (day (utcnow w))), (zfill 2 (hour (utcnow w))),
    (zfill 2 (minute (utcnow w))), (zfill 2 (second (utcnow w))),
    (if microsecond (utcnow w) =? 0 then []
     else 46 :: zfill 6 (microsecond (utcnow w))).
  split; [exact Hdec|]. split; [reflexivity|].
  split.
  { unfold timestamp_of, isoformat.
    repeat (rewrite <- app_assoc; cbn [app]). reflexivity. }
  do 6 (split; [assumption|]).
  split.
  { destruct (microsecond (utcnow w) =? 0); [reflexivity|].
    eexists. split; [reflexivity|exact Hus']. }
  unfold timestamp_of, isoformat.
  destruct HY as [LY _], HMo as [LMo _], HD as [LD _], Hh' as [Lh _],
    Hmi' as [Lmi _], Hs' as [Ls _], Hus' as [Lus _].
  repeat (rewrite length_app || cbn [length]).
  rewrite LY, LMo, LD, Lh, Lmi, Ls.
  destruct (microsecond (utcnow w) =? 0); cbn [length]; [reflexivity|].
  rewrite Lus. reflexivity.
Qed.

Lemma X15_timestamp_format_witness :
  exists o ts Y Mo D h mi s frac,
    decoded_body (success_response None example_world) = Some o
    /\ field "timestamp" (field "_meta" o) = PStr ts
    /\ ts = Y ++ 45 :: Mo ++ 45 :: D ++ 84 :: h ++ 58 :: mi ++ 58 :: s ++ frac ++ [90]
    /\ digits_text 4 2024 Y
    /\ digits_text 2 3 Mo
    /\ digits_text 2 9 D
    /\ digits_text 2 7 h
    /\ digits_text 2 5 mi
    /\ digits_text 2 1 s
    /\ (exists us, frac = 46 :: us /\ digits_text 6 1234 us)
    /\ length ts = 27%nat.
Proof.
  apply (X15_timestamp_format (PDict example_event) None example_world
           (success_response None example_world)
           (snd (lambda_handler (PDict example_event) None example_world))).
  - unfold valid_datetime. cbn. lia.
  - vm_compute. reflexivity.
  - reflexivity.
Defined.

(** ** Bodies and the limits of the interpreter *)




